(** * AnimalRepel-System: the dataset collector and the diagnostic runner

    A shallow embedding of [test.py] (the menu-driven dataset
    collector) and [Load_Model.py] (the diagnostic runner), with the
    properties of the specification stated and proved over it.

    Python values are embedded as follows: [str] as [string] (a byte
    string, UTF-8 for the few non-ASCII console symbols), [int] as [Z],
    lengths and counters as [nat], [None]-or-a-value as [option],
    exceptions as the values of [exn].  A function that has effects is a
    computation in the monad [M]: it takes the program state and gives a
    result (a value or a raised exception), the next state, and the lines
    it printed. *)

From Stdlib Require Import String Ascii List ZArith Lia Bool Arith.
From Stdlib Require Import DecimalString DecimalNat DecimalPos DecimalZ FinFun.
From stdpp Require Import base gmap strings list sorting.

Local Open Scope string_scope.
Local Open Scope list_scope.
#[local] Set Warnings "-register-all".

(** ** Python prelude: exceptions, string helpers, path functions *)

Module Py.

(** The exception classes that the two scripts can meet.  The payload is
    the name, path or message the exception carries ([KeyError] carries
    the [repr] of the key); [OtherException] is any other class derived
    from [Exception], as the hardware libraries may raise.

    [Unmodelled] is no exception of Python: the model raises it where
    the run leaves the fragment it covers (see [Diagnostic.parsed]).  No
    handler of the scripts' [except Exception] clauses catches it, so it
    ends the run, and a statement that concludes another outcome also
    says that the run stayed inside the fragment. *)
Inductive exn : Type :=
| KeyboardInterrupt
| SystemExit (code : Z)
| NameError (name : string)
| AttributeError (msg : string)
| TypeError (msg : string)
| ValueError (msg : string)
| KeyError (key_repr : string)
| EOFError
| ImportError (module : string)
| FileNotFoundError (path : string)
| FileExistsError (path : string)
| NotADirectoryError (path : string)
| ShutilError (path : string)
| IndexError (msg : string)
| ZeroDivisionError (msg : string)
| RecursionError
| RuntimeError (msg : string)
| OtherException (cls msg : string)
| Unmodelled.

(** [isinstance(e, Exception)]: [KeyboardInterrupt] and [SystemExit]
    derive from [BaseException] only. *)
Definition is_Exception (e : exn) : bool :=
  match e with
  | KeyboardInterrupt | SystemExit _ | Unmodelled => false
  | _ => true
  end.

(** [str(e)] as printed by the handlers. *)
Definition exn_text (e : exn) : string :=
  match e with
  | KeyboardInterrupt => ""
  | SystemExit c => ""
  | Unmodelled => ""
  | NameError n => "name '" +:+ n +:+ "' is not defined"
  | AttributeError m | TypeError m | ValueError m | RuntimeError m | IndexError m
  | ZeroDivisionError m | OtherException _ m => m
  | KeyError k => k
  | EOFError => "EOF when reading a line"
  | ImportError m => "No module named '" +:+ m +:+ "'"
  | FileNotFoundError p => "[Errno 2] No such file or directory: '" +:+ p +:+ "'"
  | FileExistsError p => "[Errno 17] File exists: '" +:+ p +:+ "'"
  | NotADirectoryError p => "[Errno 20] Not a directory: '" +:+ p +:+ "'"
  | ShutilError p => "Destination path '" +:+ p +:+ "' already exists"
  | RecursionError => "maximum recursion depth exceeded"
  end.

(** The status with which the interpreter ends when [e] reaches the top
    level uncaught: the code given to [sys.exit], death by SIGINT for an
    interrupt, 1 after a traceback ([-1], which no process ends with,
    marks a run the model does not cover). *)
Definition exit_status_of (e : exn) : Z :=
  match e with
  | SystemExit c => c
  | KeyboardInterrupt => 130%Z
  | Unmodelled => (-1)%Z
  | _ => 1%Z
  end.

Inductive result (A : Type) : Type :=
| Ok (a : A)
| Raise (e : exn).
Arguments Ok {A} a.
Arguments Raise {A} e.

(** [str(n)] for a non-negative integer and [str(z)] for any integer. *)
Definition str_nat (n : nat) : string := NilZero.string_of_uint (Nat.to_uint n).
Definition str_int (z : Z) : string := NilZero.string_of_int (Z.to_int z).

(** [c * n] for a one-character string [c]. *)
Fixpoint repeat_char (c : ascii) (n : nat) : string :=
  match n with
  | O => ""
  | S k => String c (repeat_char c k)
  end.

Definition sep : ascii := "/"%char.

(** [sep in s] *)
Fixpoint has_sep (s : string) : bool :=
  match s with
  | "" => false
  | String c r => Ascii.eqb c sep || has_sep r
  end.

(** [s.startswith(p)], and the rest of [s] after the prefix [p]. *)
Fixpoint strip_prefix (p s : string) : option string :=
  match p, s with
  | "", _ => Some s
  | String a p', String b s' => if Ascii.eqb a b then strip_prefix p' s' else None
  | String _ _, "" => None
  end.

Definition startswith (s p : string) : bool :=
  match strip_prefix p s with Some _ => true | None => false end.

(** [p in s]: [p] occurs in [s] at some position. *)
Fixpoint contains (s p : string) : bool :=
  startswith s p ||
  match s with
  | "" => false
  | String _ r => contains r p
  end.

(** [s.endswith(p)] *)
Fixpoint endswith (s p : string) : bool :=
  String.eqb s p ||
  match s with
  | "" => false
  | String _ r => endswith r p
  end.

(** [s.rstrip('/')] *)
Fixpoint rstrip_sep (s : string) : string :=
  match s with
  | "" => ""
  | String c r =>
      let r' := rstrip_sep r in
      if Ascii.eqb c sep && String.eqb r' "" then "" else String c r'
  end.

(** Python's [str.strip()], on a string held as its UTF-8 bytes.  The
    characters removed are those of [str.isspace]: in ASCII the space,
    tab, newline, vertical tab, form feed, carriage return and the four
    separators 0x1c-0x1f; beyond ASCII U+0085, U+00A0, U+1680, U+2000 to
    U+200A, U+2028, U+2029, U+202F, U+205F and U+3000, of two or three
    bytes each. *)
Definition is_space (c : ascii) : bool :=
  let n := nat_of_ascii c in
  (n =? 32)%nat || ((9 <=? n)%nat && (n <=? 13)%nat) || ((28 <=? n)%nat && (n <=? 31)%nat).

(** The second byte of a two-byte white-space character after 0xC2. *)
Definition is_space_c2 (d : ascii) : bool :=
  let n := nat_of_ascii d in (n =? 133)%nat || (n =? 160)%nat.

(** The second and third bytes of a three-byte white-space character
    after the lead byte [c]. *)
Definition is_space_3 (c d e : ascii) : bool :=
  let n := nat_of_ascii c in
  let m := nat_of_ascii d in
  let k := nat_of_ascii e in
  ((n =? 225)%nat && (m =? 154)%nat && (k =? 128)%nat) ||
  ((n =? 226)%nat && (m =? 128)%nat &&
     (((128 <=? k)%nat && (k <=? 138)%nat) || (k =? 168)%nat || (k =? 169)%nat ||
      (k =? 175)%nat)) ||
  ((n =? 226)%nat && (m =? 129)%nat && (k =? 159)%nat) ||
  ((n =? 227)%nat && (m =? 128)%nat && (k =? 128)%nat).

Fixpoint lstrip (s : string) : string :=
  match s with
  | "" => ""
  | String c r =>
      if is_space c then lstrip r
      else
        match r with
        | String d r' =>
            if (nat_of_ascii c =? 194)%nat && is_space_c2 d then lstrip r'
            else
              match r' with
              | String e r'' => if is_space_3 c d e then lstrip r'' else s
              | "" => s
              end
        | "" => s
        end
  end.

(** What is left of [s] once the white space at its end is gone: a
    tail is dropped when it is white space throughout. *)
Fixpoint rstrip (s : string) : string :=
  match s with
  | "" => ""
  | String c r =>
      let r' := rstrip r in
      if String.eqb (lstrip (String c r')) "" then "" else String c r'
  end.

Definition strip (s : string) : string := rstrip (lstrip s).

(** [i = p.rfind('/') + 1; (p[:i], p[i:])], or [None] when [p] has no
    separator (then [i = 0]). *)
Fixpoint cut_last_sep (p : string) : option (string * string) :=
  match p with
  | "" => None
  | String c r =>
      match cut_last_sep r with
      | Some (h, t) => Some (String c h, t)
      | None => if Ascii.eqb c sep then Some (String c "", r) else None
      end
  end.

(** [posixpath.split] *)
Definition path_split (p : string) : string * string :=
  match cut_last_sep p with
  | None => ("", p)
  | Some (h, t) =>
      let h' := rstrip_sep h in
      (if String.eqb h' "" then h else h', t)
  end.

Definition dirname (p : string) : string := fst (path_split p).

(** [posixpath.basename]: the part after the last separator. *)
Definition basename (p : string) : string :=
  match cut_last_sep p with
  | None => p
  | Some (_, t) => t
  end.

(** A path that ends with a character other than the separator. *)
Definition ends_plain (s : string) : Prop :=
  exists a c, s = a +:+ String c "" /\ Ascii.eqb c sep = false.

(** [posixpath.join(a, b)] *)
Definition path_join (a b : string) : string :=
  if startswith b "/" then b
  else if String.eqb a "" || endswith a "/" then a +:+ b
  else a +:+ "/" +:+ b.

(** *** The effect monad

    A computation takes the program state and gives a result, the next
    state and the lines it printed.  The state survives an exception:
    what was written before the [raise] stays written. *)

Record outcome (S A : Type) : Type := mkOutcome {
  res : result A;
  st : S;
  out : list string
}.
Arguments mkOutcome {S A} res st out.
Arguments res {S A} o.
Arguments st {S A} o.
Arguments out {S A} o.

Definition M (S A : Type) : Type := S -> outcome S A.

Definition ret {S A} (a : A) : M S A := fun s => mkOutcome (Ok a) s [].
Definition raise {S A} (e : exn) : M S A := fun s => mkOutcome (Raise e) s [].
Definition bind {S A B} (m : M S A) (k : A -> M S B) : M S B :=
  fun s =>
    let o := m s in
    match res o with
    | Ok a => let o' := k a (st o) in mkOutcome (res o') (st o') (out o ++ out o')
    | Raise e => mkOutcome (Raise e) (st o) (out o)
    end.

Declare Scope py_scope.
Delimit Scope py_scope with py.
Notation "x <- m ;; k" := (bind m (fun x => k))
  (at level 100, m at next level, right associativity) : py_scope.
Notation "m ;; k" := (bind m (fun _ => k))
  (at level 100, right associativity) : py_scope.
Local Open Scope py_scope.

Definition get {S} : M S S := fun s => mkOutcome (Ok s) s [].
Definition modify {S} (f : S -> S) : M S unit := fun s => mkOutcome (Ok tt) (f s) [].
Definition print {S} (line : string) : M S unit := fun s => mkOutcome (Ok tt) s [line].

(** [try: body finally: fin].  The clean-up always runs; an exception it
    raises replaces the outcome of the body. *)
Definition try_finally {S A} (body : M S A) (fin : M S unit) : M S A :=
  fun s =>
    let o := body s in
    let o' := fin (st o) in
    match res o' with
    | Ok _ => mkOutcome (res o) (st o') (out o ++ out o')
    | Raise e => mkOutcome (Raise e) (st o') (out o ++ out o')
    end.

(** [try: body except ...: handler]: [handler e] is [Some h] when one of
    the except clauses matches [e]. *)
Definition try_except {S A} (body : M S A) (handler : exn -> option (M S A)) : M S A :=
  fun s =>
    let o := body s in
    match res o with
    | Ok a => o
    | Raise e =>
        match handler e with
        | Some h => let o' := h (st o) in mkOutcome (res o') (st o') (out o ++ out o')
        | None => o
        end
    end.

(** [for x in l: body x] *)
Fixpoint for_each {S A} (l : list A) (body : A -> M S unit) : M S unit :=
  match l with
  | [] => ret tt
  | x :: l' => body x ;; for_each l' body
  end.

(** A blocking or hardware call whose outcome the environment decides:
    [None] lets it complete, [Some e] makes it raise [e]. *)
Definition may_raise {S} (fault : option exn) : M S unit :=
  match fault with
  | None => ret tt
  | Some e => raise e
  end.

Definition nl : string := String "010"%char "".

(** A relation between the state before and the state after that a
    computation keeps, whether it returns or raises. *)
Definition steps {S A : Type} (R : relation S) (m : M S A) : Prop :=
  forall s, R s (st (m s)).

(** A specification of a computation: from a state in [I] it leads to
    a state in [I], whether it returns or raises; what it returns is in
    [Q]; what it raises is in [P]. *)
Definition triple {S A : Type} (I : S -> Prop) (m : M S A) (Q : A -> Prop) (P : exn -> Prop)
  : Prop :=
  forall s, I s ->
    I (st (m s)) /\ match res (m s) with Ok a => Q a | Raise e => P e end.

(** Any value, any state. *)
Definition any {A : Type} : A -> Prop := fun _ => True.

(** What the handlers of the collector's top level catch:
    [KeyboardInterrupt], and the classes derived from [Exception]. *)
Definition catchable (e : exn) : Prop := e = KeyboardInterrupt \/ is_Exception e = true.

(** A call that, when it fails, raises something in [P]. *)
Definition fault_in (P : exn -> Prop) (f : option exn) : Prop :=
  forall e, f = Some e -> P e.

(** [datetime.now()] and its rendering by
    [strftime("%Y%m%d_%H%M%S_%f")]: each field in decimal, padded with
    zeros to its width (years up to 9999). *)
Record datetime : Type := mkDatetime {
  year : nat;
  month : nat;
  day : nat;
  hour : nat;
  minute : nat;
  second : nat;
  microsecond : nat
}.

Fixpoint digits_fixed (width n : nat) : string :=
  match width with
  | O => ""
  | S w => digits_fixed w (n / 10) +:+ String (ascii_of_nat (48 + n mod 10)) ""
  end.

Definition strftime_stamp (d : datetime) : string :=
  digits_fixed 4 (year d) +:+ digits_fixed 2 (month d) +:+ digits_fixed 2 (day d) +:+ "_" +:+
  digits_fixed 2 (hour d) +:+ digits_fixed 2 (minute d) +:+ digits_fixed 2 (second d) +:+ "_" +:+
  digits_fixed 6 (microsecond d).

(** What the operator does at a prompt: types a line, or interrupts.
    The end of the list is the end of standard input. *)
Inductive stdin_event : Type :=
| Line (text : string)
| CtrlC.

End Py.

(** ** The dataset collector, [test.py] *)

Module Collector.
Import Py.
Local Open Scope py_scope.

(** *** Program state *)

(** The calls made on the camera object [picam2]. *)
Inductive cam_call : Type :=
| CamStart
| CamStop
| CamCapture (filename : string).

(** The state the collector works on: the module global [buzzer_class],
    the directories and files on disk (paths compared as written, [.]
    and [/] always present), and the calls received by the camera so
    far, oldest first. *)
Record state : Type := mkState {
  buzzer_class : option string;
  dirs : list string;
  files : list string;
  cam : list cam_call
}.

Definition set_buzzer_class (v : option string) (s : state) : state :=
  mkState v (dirs s) (files s) (cam s).
Definition set_dirs (d : list string) (s : state) : state :=
  mkState (buzzer_class s) d (files s) (cam s).
Definition set_files (f : list string) (s : state) : state :=
  mkState (buzzer_class s) (dirs s) f (cam s).
Definition log_cam (c : cam_call) (s : state) : state :=
  mkState (buzzer_class s) (dirs s) (files s) (cam s ++ [c]).

Abbreviation M := (Py.M state).

(** *** Files and directories *)

Definition mem (p : string) (l : list string) : bool := existsb (String.eqb p) l.

Definition isdir (s : state) (p : string) : bool :=
  String.eqb p "." || String.eqb p "/" || mem p (dirs s).
Definition isfile (s : state) (p : string) : bool := mem p (files s).
Definition path_exists (s : state) (p : string) : bool := isdir s p || isfile s p.

(** The directory that holds [p] is there: the working directory for a
    bare name, [dirname p] otherwise. *)
Definition parent_ok (s : state) (p : string) : bool :=
  let d := dirname p in String.eqb d "" || isdir s d.

Definition add (p : string) (l : list string) : list string :=
  if mem p l then l else l ++ [p].
Definition remove (p : string) (l : list string) : list string :=
  List.filter (fun q => negb (String.eqb p q)) l.

(** [os.mkdir] *)
Definition os_mkdir (p : string) : M unit :=
  s <- get ;;
  if path_exists s p then raise (FileExistsError p)
  else if parent_ok s p then modify (fun s => set_dirs (add p (dirs s)) s)
  else if isfile s (dirname p) then raise (NotADirectoryError p)
  else raise (FileNotFoundError p).

(** [os.makedirs(name)], with the recursion on the head of the path
    bounded by the length of the path. *)
Fixpoint makedirs_rec (fuel : nat) (name : string) : M unit :=
  let '(head, tail) := path_split name in
  let '(head, tail) := if String.eqb tail "" then path_split head else (head, tail) in
  s <- get ;;
  if negb (String.eqb head "") && negb (String.eqb tail "") && negb (path_exists s head)
  then
    match fuel with
    | O => raise RecursionError
    | S fuel' =>
        try_except (makedirs_rec fuel' head)
          (fun e => match e with FileExistsError _ => Some (ret tt) | _ => None end) ;;
        if String.eqb tail "." then ret tt else os_mkdir name
    end
  else os_mkdir name.

Definition os_makedirs (name : string) : M unit :=
  makedirs_rec (String.length name) name.

(** [os.rename] of a regular file, and what [shutil.move] makes of its
    failure: the copy it falls back on fails for the same reason. *)
Definition os_rename (src dst : string) : M unit :=
  s <- get ;;
  if negb (isfile s src) then raise (FileNotFoundError src)
  else if parent_ok s dst then modify (fun s => set_files (add dst (remove src (files s))) s)
  else if isfile s (dirname dst) then raise (NotADirectoryError dst)
  else raise (FileNotFoundError dst).

(** [shutil.move] of a regular file. *)
Definition shutil_move (src dst : string) : M unit :=
  s <- get ;;
  if isdir s dst then
    let real_dst := path_join dst (basename src) in
    if path_exists s real_dst then raise (ShutilError real_dst)
    else os_rename src real_dst
  else os_rename src dst.

(** The name of [p] inside directory [d], when [p] is an entry of [d]. *)
Definition child_name (d p : string) : option string :=
  match strip_prefix (path_join d "") p with
  | Some n => if String.eqb n "" || has_sep n then None else Some n
  | None => None
  end.

(** [os.listdir] *)
Definition os_listdir (d : string) : M (list string) :=
  s <- get ;;
  if isdir s d then ret (remove_dups (omap (child_name d) (dirs s ++ files s)))
  else if isfile s d then raise (NotADirectoryError d)
  else raise (FileNotFoundError d).

(** *** Configuration *)

Definition DATA_DIR : string := "./training_data".

(** *** The hardware environment *)

(** One turn of the capture loop: the time [datetime.now()] reads, and
    what the environment does to the two blocking calls of the turn. *)
Record shot : Type := mkShot {
  now : datetime;
  capture_fault : option exn;
  sleep_fault : option exn
}.

(** The name the loop gives to the file of a turn. *)
Definition capture_filename (sh : shot) : string :=
  "capture_" +:+ strftime_stamp (now sh) +:+ ".jpg".

(** One call of [take_photos_continuous] as the environment plays it:
    the loop condition [time.time() - start_time < duration] holds once
    for each element of [shots] and fails afterwards. *)
Record burst : Type := mkBurst {
  countdown_fault : option exn;
  start_fault : option exn;
  warmup_fault : option exn;
  shots : list shot;
  stop_fault : option exn
}.

(** One call of [preview_camera]. *)
Record preview : Type := mkPreview {
  preview_start_fault : option exn;
  preview_sleep_fault : option exn;
  preview_stop_fault : option exn
}.

Definition picam2_start (fault : option exn) : M unit :=
  modify (log_cam CamStart) ;; may_raise fault.
Definition picam2_stop (fault : option exn) : M unit :=
  modify (log_cam CamStop) ;; may_raise fault.
Definition picam2_capture_file (filename : string) (fault : option exn) : M unit :=
  modify (log_cam (CamCapture filename)) ;;
  may_raise fault ;;
  modify (fun s => set_files (add filename (files s)) s).
Definition time_sleep (fault : option exn) : M unit := may_raise fault.

(** *** The functions of the script *)

Definition ensure_data_dir : M unit :=
  s <- get ;;
  if negb (path_exists s DATA_DIR) then
    os_makedirs DATA_DIR ;;
    print ("Created data directory: " +:+ DATA_DIR)
  else ret tt.

(** The body of the [while] loop of [take_photos_continuous].  The two
    locals [filenames] and [capture_count] outlive an exception, so the
    loop returns them together with the exception that ended it, if any. *)
Fixpoint capture_loop (l : list shot) (filenames : list string) (capture_count : nat)
  : M (list string * nat * option exn) :=
  match l with
  | [] => ret (filenames, capture_count, None)
  | sh :: l' =>
      let timestamp := strftime_stamp (now sh) in
      let filename := "capture_" +:+ timestamp +:+ ".jpg" in
      fun s =>
        let o1 := picam2_capture_file filename (capture_fault sh) s in
        match res o1 with
        | Raise e => mkOutcome (Ok (filenames, capture_count, Some e)) (st o1) (out o1)
        | Ok _ =>
            let filenames := filenames ++ [filename] in
            let capture_count := S capture_count in
            let o2 :=
              (print ("  Captured image " +:+ str_nat capture_count +:+ ": " +:+ filename) ;;
               time_sleep (sleep_fault sh)) (st o1) in
            match res o2 with
            | Raise e =>
                mkOutcome (Ok (filenames, capture_count, Some e)) (st o2) (out o1 ++ out o2)
            | Ok _ =>
                let o3 := capture_loop l' filenames capture_count (st o2) in
                mkOutcome (res o3) (st o3) (out o1 ++ out o2 ++ out o3)
            end
        end
  end.

Definition take_photos_continuous (cls_name flag : string) (b : burst) : M (list string) :=
  print (nl +:+ "Starting camera for 5 seconds...") ;;
  print "Get ready! Capturing will start in 2 seconds..." ;;
  time_sleep (countdown_fault b) ;;
  picam2_start (start_fault b) ;;
  time_sleep (warmup_fault b) ;;
  print "📸 Capturing images..." ;;
  r <- capture_loop (shots b) [] 0 ;;
  let '(filenames, capture_count, pending) := r in
  (* finally: *)
  picam2_stop (stop_fault b) ;;
  print ("✓ Capture complete! Total images: " +:+ str_nat capture_count +:+ nl) ;;
  match pending with
  | Some e => raise e
  | None => ret filenames
  end.

Definition capture_flag (bc : option string) (cls_name : string) : string :=
  match bc with
  | Some c => if String.eqb c cls_name then "dang" else "ndan"
  | None => "ndan"
  end.

Definition capture_class_dir (bc : option string) (cls_name : string) : string :=
  path_join DATA_DIR (cls_name +:+ "_" +:+ capture_flag bc cls_name).

Definition capture_dest (bc : option string) (cls_name fname : string) : string :=
  path_join (capture_class_dir bc cls_name)
            (cls_name +:+ capture_flag bc cls_name +:+ basename fname).

Definition capture_images (cls_name : string) (b : burst) : M unit :=
  if String.eqb cls_name "" then print "❌ Please enter a valid class name."
  else
    s <- get ;;
    let flag := capture_flag (buzzer_class s) cls_name in
    let class_dir := path_join DATA_DIR (cls_name +:+ "_" +:+ flag) in
    (if negb (path_exists s class_dir) then
       os_makedirs class_dir ;;
       print ("✓ Created folder: " +:+ class_dir)
     else ret tt) ;;
    filenames <- take_photos_continuous cls_name flag b ;;
    for_each filenames (fun fname =>
      let dest := path_join class_dir (cls_name +:+ flag +:+ basename fname) in
      shutil_move fname dest) ;;
    print ("✓ Saved " +:+ str_nat (length filenames) +:+ " images to " +:+ class_dir) ;;
    print ("  Flag: " +:+
           (if String.eqb flag "dang" then "⚠  DANGEROUS (will trigger buzzer)"
            else "✓ SAFE (no buzzer)") +:+ nl).

Definition flag_class (cls_name : string) : M unit :=
  if String.eqb cls_name "" then print "❌ Enter a valid class name to flag."
  else
    modify (set_buzzer_class (Some cls_name)) ;;
    print ("⚠  Class '" +:+ cls_name +:+ "' flagged to trigger buzzer during live inference." +:+ nl).

Definition show_menu : M unit :=
  print (nl +:+ repeat_char "=" 60) ;;
  print "  RASPBERRY PI CAMERA DATA COLLECTION" ;;
  print (repeat_char "=" 60) ;;
  print (nl +:+ "Options:") ;;
  print "  1. Capture images for a class (5 seconds)" ;;
  print "  2. Flag a class for buzzer alert" ;;
  print "  3. View current buzzer class" ;;
  print "  4. List captured data" ;;
  print "  5. Preview camera (2 seconds)" ;;
  print "  6. Exit" ;;
  print (repeat_char "-" 60).

Definition preview_camera (p : preview) : M unit :=
  print (nl +:+ "📷 Starting 2-second camera preview...") ;;
  picam2_start (preview_start_fault p) ;;
  time_sleep (preview_sleep_fault p) ;;
  picam2_stop (preview_stop_fault p) ;;
  print ("✓ Preview complete" +:+ nl).

(** [sorted(folders)]: strings ordered by code point, which on UTF-8
    text is the order of the bytes. *)
Definition sorted (l : list string) : list string := merge_sort String.le l.

(** The marker of one census line: ["_dang" in folder]. *)
Definition flag_emoji (folder : string) : string :=
  if contains folder "_dang" then "⚠ " else "✓ ".

Definition census_line (folder : string) (image_count : nat) : string :=
  flag_emoji folder +:+ " " +:+ folder +:+ ": " +:+ str_nat image_count +:+ " images".

(** The [for folder in sorted(folders)] loop, with the running total. *)
Fixpoint census_loop (folders : list string) (total_images : nat) : M nat :=
  match folders with
  | [] => ret total_images
  | folder :: rest =>
      let folder_path := path_join DATA_DIR folder in
      entries <- os_listdir folder_path ;;
      let image_count := length (List.filter (fun f => endswith f ".jpg") entries) in
      print (census_line folder image_count) ;;
      census_loop rest (total_images + image_count)
  end.

Definition list_captured_data : M unit :=
  print (nl +:+ repeat_char "=" 60) ;;
  print "  CAPTURED DATA SUMMARY" ;;
  print (repeat_char "=" 60) ;;
  s <- get ;;
  if negb (path_exists s DATA_DIR) then print "No data captured yet."
  else
    entries <- os_listdir DATA_DIR ;;
    let folders := List.filter (fun f => isdir s (path_join DATA_DIR f)) entries in
    match folders with
    | [] => print "No data captured yet."
    | _ =>
        total_images <- census_loop (sorted folders) 0 ;;
        print (repeat_char "-" 60) ;;
        print ("Total images: " +:+ str_nat total_images) ;;
        print (repeat_char "=" 60 +:+ nl)
    end.

(** *** The menu loop *)

Definition nominal_burst : burst := mkBurst None None None [] None.
Definition nominal_preview : preview := mkPreview None None None.

Definition view_buzzer_class : M unit :=
  s <- get ;;
  match buzzer_class s with
  | Some c =>
      if String.eqb c "" then print (nl +:+ "✓ No class currently flagged for buzzer." +:+ nl)
      else print (nl +:+ "⚠  Current buzzer class: '" +:+ c +:+ "'" +:+ nl)
  | None => print (nl +:+ "✓ No class currently flagged for buzzer." +:+ nl)
  end.

(** The [while True] loop of [main].  [input(prompt)] writes the prompt
    and takes the next event of [stdin]; each camera operation takes the
    next script of its kind ([nominal_burst], [nominal_preview] once the
    list is used up). *)
Fixpoint main_loop (stdin : list stdin_event) (bursts : list burst) (previews : list preview)
  : M unit :=
  show_menu ;;
  print "Enter your choice (1-6): " ;;
  match stdin with
  | [] => raise EOFError
  | CtrlC :: _ => raise KeyboardInterrupt
  | Line l :: rest =>
      let choice := strip l in
      if String.eqb choice "1" then
        print (nl +:+ "Enter class name: ") ;;
        match rest with
        | [] => raise EOFError
        | CtrlC :: _ => raise KeyboardInterrupt
        | Line l2 :: rest2 =>
            let cls_name := strip l2 in
            if negb (String.eqb cls_name "") then
              capture_images cls_name (hd nominal_burst bursts) ;;
              main_loop rest2 (tl bursts) previews
            else
              print ("❌ Invalid class name." +:+ nl) ;;
              main_loop rest2 bursts previews
        end
      else if String.eqb choice "2" then
        print (nl +:+ "Enter class name to flag for buzzer: ") ;;
        match rest with
        | [] => raise EOFError
        | CtrlC :: _ => raise KeyboardInterrupt
        | Line l2 :: rest2 =>
            flag_class (strip l2) ;;
            main_loop rest2 bursts previews
        end
      else if String.eqb choice "3" then
        view_buzzer_class ;;
        main_loop rest bursts previews
      else if String.eqb choice "4" then
        list_captured_data ;;
        main_loop rest bursts previews
      else if String.eqb choice "5" then
        preview_camera (hd nominal_preview previews) ;;
        main_loop rest bursts (tl previews)
      else if String.eqb choice "6" then
        print (nl +:+ "👋 Exiting... Goodbye!" +:+ nl)
      else
        print (nl +:+ "❌ Invalid choice. Please enter 1-6." +:+ nl) ;;
        main_loop rest bursts previews
  end.

Definition main (stdin : list stdin_event) (bursts : list burst) (previews : list preview)
  : M unit :=
  ensure_data_dir ;;
  print (nl +:+ "🎥 Raspberry Pi Camera Data Collection Tool") ;;
  print ("Capture training images for object detection" +:+ nl) ;;
  main_loop stdin bursts previews.

(** *** The module as a script *)

(** The statements under the guard of line 222: [main()] inside
    [try / except KeyboardInterrupt / except Exception / finally], the
    clean-up being [picam2.stop()] with every exception swallowed. *)
Definition guarded_block (stdin : list stdin_event) (bursts : list burst)
    (previews : list preview) (final_stop_fault : option exn) : M unit :=
  try_finally
    (try_except (main stdin bursts previews)
       (fun e =>
          match e with
          | KeyboardInterrupt =>
              Some (print (nl +:+ nl +:+ "👋 Interrupted by user. Exiting..." +:+ nl))
          | _ =>
              if is_Exception e
              then Some (print (nl +:+ "❌ Error: " +:+ exn_text e +:+ nl))
              else None
          end))
    (try_except (picam2_stop final_stop_fault) (fun _ => Some (ret tt))).

(** The values a module-level name can hold, as far as the guard looks
    at them: a string, [None], or an object the model does not look
    into. *)
Inductive pyval : Type :=
| PyStr (s : string)
| PyNone
| PyObject.

Definition pyval_eqb (a b : pyval) : bool :=
  match a, b with
  | PyStr x, PyStr y => String.eqb x y
  | PyNone, PyNone => true
  | _, _ => false
  end.

(** The names bound in the module when control reaches line 222: the
    attributes every module run as a script has, then the names bound
    by lines 7-178 in order. *)
Definition module_globals : list (string * pyval) :=
  [ ("__name__", PyStr "__main__");
    ("__doc__", PyStr (nl +:+ "Raspberry Pi Camera Data Collection Script" +:+ nl +:+
                       "Captures images for object detection training with buzzer flagging" +:+
                       nl));
    ("__package__", PyNone); ("__loader__", PyObject); ("__spec__", PyNone);
    ("__annotations__", PyObject); ("__builtins__", PyObject);
    ("__file__", PyObject); ("__cached__", PyNone);
    ("os", PyObject); ("shutil", PyObject); ("time", PyObject);
    ("datetime", PyObject); ("Picamera2", PyObject); ("np", PyObject);
    ("Image", PyObject);
    ("DATA_DIR", PyStr DATA_DIR); ("buzzer_class", PyNone);
    ("picam2", PyObject); ("camera_config", PyObject);
    ("ensure_data_dir", PyObject); ("take_photos_continuous", PyObject);
    ("capture_images", PyObject); ("flag_class", PyObject);
    ("show_menu", PyObject); ("preview_camera", PyObject);
    ("list_captured_data", PyObject); ("main", PyObject) ].

(** The names of the [builtins] module, searched after the globals. *)
Definition builtin_names : list string :=
  [ "ArithmeticError"; "AssertionError"; "AttributeError"; "BaseException";
    "BlockingIOError"; "BrokenPipeError"; "BufferError"; "BytesWarning";
    "ChildProcessError"; "ConnectionAbortedError"; "ConnectionError";
    "ConnectionRefusedError"; "ConnectionResetError"; "DeprecationWarning";
    "EOFError"; "Ellipsis"; "EnvironmentError"; "Exception"; "False";
    "FileExistsError"; "FileNotFoundError"; "FloatingPointError";
    "FutureWarning"; "GeneratorExit"; "IOError"; "ImportError";
    "ImportWarning"; "IndentationError"; "IndexError"; "InterruptedError";
    "IsADirectoryError"; "KeyError"; "KeyboardInterrupt"; "LookupError";
    "MemoryError"; "ModuleNotFoundError"; "NameError"; "None";
    "NotADirectoryError"; "NotImplemented"; "NotImplementedError"; "OSError";
    "OverflowError"; "PendingDeprecationWarning"; "PermissionError";
    "ProcessLookupError"; "RecursionError"; "ReferenceError";
    "ResourceWarning"; "RuntimeError"; "RuntimeWarning"; "StopAsyncIteration";
    "StopIteration"; "SyntaxError"; "SyntaxWarning"; "SystemError";
    "SystemExit"; "TabError"; "TimeoutError"; "True"; "TypeError";
    "UnboundLocalError"; "UnicodeDecodeError"; "UnicodeEncodeError";
    "UnicodeError"; "UnicodeTranslateError"; "UnicodeWarning"; "UserWarning";
    "ValueError"; "Warning"; "ZeroDivisionError";
    "__build_class__"; "__debug__"; "__doc__"; "__import__"; "__loader__";
    "__name__"; "__package__"; "__spec__";
    "abs"; "aiter"; "all"; "anext"; "any"; "ascii"; "bin"; "bool";
    "breakpoint"; "bytearray"; "bytes"; "callable"; "chr"; "classmethod";
    "compile"; "complex"; "copyright"; "credits"; "delattr"; "dict"; "dir";
    "divmod"; "enumerate"; "eval"; "exec"; "exit"; "filter"; "float";
    "format"; "frozenset"; "getattr"; "globals"; "hasattr"; "hash"; "help";
    "hex"; "id"; "input"; "int"; "isinstance"; "issubclass"; "iter"; "len";
    "license"; "list"; "locals"; "map"; "max"; "memoryview"; "min"; "next";
    "object"; "oct"; "open"; "ord"; "pow"; "print"; "property"; "quit";
    "range"; "repr"; "reversed"; "round"; "set"; "setattr"; "slice";
    "sorted"; "staticmethod"; "str"; "sum"; "super"; "tuple"; "type";
    "vars"; "zip" ].

Fixpoint assoc (x : string) (l : list (string * pyval)) : option pyval :=
  match l with
  | [] => None
  | (k, v) :: l' => if String.eqb x k then Some v else assoc x l'
  end.

(** Reading a global name: the module's globals, then the builtins,
    else [NameError]. *)
Definition load_name (x : string) : M pyval :=
  match assoc x module_globals with
  | Some v => ret v
  | None => if mem x builtin_names then ret PyObject else raise (NameError x)
  end.

(** How a run of the interpreter ends. *)
Record process : Type := mkProcess {
  exit_status : Z;
  uncaught : option exn;
  console : list string;
  final : state
}.

Definition run_script (body : M unit) (s0 : state) : process :=
  let o := body s0 in
  match res o with
  | Ok _ => mkProcess 0%Z None (out o) (st o)
  | Raise e => mkProcess (exit_status_of e) (Some e) (out o) (st o)
  end.

(** The state in which line 222 is reached: [buzzer_class = None]
    (line 17), the disk as it was found, the camera configured and not
    yet used. *)
Definition initial_state (disk_dirs disk_files : list string) : state :=
  mkState None disk_dirs disk_files [].

(** Lines 222-234, as written: the guard reads the names [_name_] and
    compares with the string [_main_]. *)
Definition module_tail (stdin : list stdin_event) (bursts : list burst)
    (previews : list preview) (final_stop_fault : option exn) : M unit :=
  name <- load_name "_name_" ;;
  if pyval_eqb name (PyStr "_main_")
  then guarded_block stdin bursts previews final_stop_fault
  else ret tt.

Definition test_py (disk_dirs disk_files : list string)
    (stdin : list stdin_event) (bursts : list burst) (previews : list preview)
    (final_stop_fault : option exn) : process :=
  run_script (module_tail stdin bursts previews final_stop_fault)
             (initial_state disk_dirs disk_files).


(** *** Notions the properties are stated with *)

(** The class that is flagged in state [s]. *)
Definition flagged (s : state) (c : string) : Prop := buzzer_class s = Some c.

(** The flag slot is empty or holds one class name, which is not the
    empty string. *)
Definition flag_state_ok (s : state) : Prop :=
  match buzzer_class s with
  | None => True
  | Some c => c <> ""
  end.

(** The layout as the specification words it:
    [<data_dir>/<class>_<flag>/<class><flag><capture file>]. *)
Definition spec_class_dir (cls flag : string) : string :=
  DATA_DIR +:+ "/" +:+ cls +:+ "_" +:+ flag.

(** The first exception the environment throws into the capture loop. *)
Fixpoint first_fault (l : list shot) : option exn :=
  match l with
  | [] => None
  | sh :: l' =>
      match capture_fault sh with
      | Some e => Some e
      | None =>
          match sleep_fault sh with
          | Some e => Some e
          | None => first_fault l'
          end
      end
  end.

(** The turns of the capture loop that took their picture: those before
    the first fault, and the turn of the fault when it is the sleep
    after the picture that failed. *)
Fixpoint taken (l : list shot) : list shot :=
  match l with
  | [] => []
  | sh :: l' =>
      match capture_fault sh with
      | Some _ => []
      | None => sh :: match sleep_fault sh with Some _ => [] | None => taken l' end
      end
  end.

(** The camera starts and warms up without an exception: control
    reaches the [try] of [take_photos_continuous]. *)
Definition burst_begins (b : burst) : Prop :=
  countdown_fault b = None /\ start_fault b = None /\ warmup_fault b = None.


(** The files on disk after the turns of [l] have each written theirs. *)
Definition files_after (l : list shot) (fs : list string) : list string :=
  fold_left (fun acc sh => add (capture_filename sh) acc) l fs.



(** What [os.listdir d] returns when [d] is a directory. *)
Definition listing (s : state) (d : string) : list string :=
  remove_dups (omap (child_name d) (dirs s ++ files s)).

Definition image_count (s : state) (folder : string) : nat :=
  length (List.filter (fun f => endswith f ".jpg") (listing s (path_join DATA_DIR folder))).


(** No file that lies in a directory (its path has a separator) is
    lost between the two states. *)
Definition keeps_nested : relation state :=
  fun s s' => forall p, has_sep p = true -> isfile s p = true -> isfile s' p = true.

(** The operator asks to leave: some line of the input is [6], white
    space aside. *)
Definition asks_exit (stdin : list stdin_event) : Prop :=
  exists l, In (Line l) stdin /\ strip l = "6".

(** Whatever the camera or the clock raises during a burst, or during a
    preview, is in [P]. *)
Definition burst_faults_in (P : exn -> Prop) (b : burst) : Prop :=
  fault_in P (countdown_fault b) /\ fault_in P (start_fault b) /\
  fault_in P (warmup_fault b) /\ fault_in P (stop_fault b) /\
  Forall (fun sh => fault_in P (capture_fault sh) /\ fault_in P (sleep_fault sh)) (shots b).
Definition preview_faults_in (P : exn -> Prop) (p : preview) : Prop :=
  fault_in P (preview_start_fault p) /\ fault_in P (preview_sleep_fault p) /\
  fault_in P (preview_stop_fault p).

(** The flag slot is the same before and after. *)
Definition same_flag : relation state :=
  fun s s' => buzzer_class s' = buzzer_class s.

(** Every directory there before is there after. *)
Definition dirs_grow : relation state :=
  fun s s' => forall p, isdir s p = true -> isdir s' p = true.

(** The invariant of the flag slot, as a relation between the state
    before and the state after. *)
Definition ok_kept : relation state :=
  fun s s' => flag_state_ok s -> flag_state_ok s'.

Definition is_capture (c : cam_call) : bool :=
  match c with CamCapture _ => true | _ => false end.
Definition is_stop (c : cam_call) : bool :=
  match c with CamStop => true | _ => false end.

(** How many times [picam2.stop()] was called. *)
Definition stop_calls (l : list cam_call) : nat := length (List.filter is_stop l).

End Collector.

(** ** The diagnostic runner, [Load_Model.py] *)

Module Diagnostic.
Import Py.
Local Open Scope py_scope.

(** *** JSON values and Python dictionaries *)

(** The values [json.load] returns.  [JObject] is a [dict]: its members
    are kept in insertion order and its keys are pairwise distinct;
    [JNull] is [None].  Floating-point numbers are outside the model. *)
Inductive json : Type :=
| JNull
| JBool (b : bool)
| JInt (z : Z)
| JString (s : string)
| JArray (items : list json)
| JObject (members : list (string * json)).

(** [d[k] = v] on an insertion-ordered dictionary whose key equality is
    [eqb]: a key already there keeps its place and takes the new value. *)
Fixpoint dict_set {K V : Type} (eqb : K -> K -> bool) (k : K) (v : V) (d : list (K * V))
  : list (K * V) :=
  match d with
  | [] => [(k, v)]
  | (k', v') :: d' =>
      if eqb k k' then (k', v) :: d' else (k', v') :: dict_set eqb k v d'
  end.

Fixpoint dict_get {K V : Type} (eqb : K -> K -> bool) (k : K) (d : list (K * V)) : option V :=
  match d with
  | [] => None
  | (k', v') :: d' => if eqb k k' then Some v' else dict_get eqb k d'
  end.

(** [dict(pairs)] and the dict comprehension: the pairs are inserted
    from left to right. *)
Definition dict_of_pairs {K V : Type} (eqb : K -> K -> bool) (pairs : list (K * V))
  : list (K * V) :=
  fold_left (fun d kv => dict_set eqb (fst kv) (snd kv) d) pairs [].

(** [range(n)] *)
Definition py_range (n : Z) : list Z := map Z.of_nat (seq 0 (Z.to_nat n)).

(** *** [json.dump(obj, f, indent=2)] *)

(** The one-character string made of a double quote. *)
Definition dquote : string := String "034"%char "".

Definition hex_digit (n : nat) : ascii :=
  ascii_of_nat (if (n <? 10)%nat then 48 + n else 87 + n).

(** One character of a string literal, as [ensure_ascii] writes it
    (ASCII text; the bytes from 0x80 up are left as they are). *)
Definition encode_char (c : ascii) : string :=
  let n := nat_of_ascii c in
  if (n =? 34)%nat then "\" +:+ dquote
  else if (n =? 92)%nat then "\\"
  else if (n =? 10)%nat then "\n"
  else if (n =? 13)%nat then "\r"
  else if (n =? 9)%nat then "\t"
  else if (n =? 8)%nat then "\b"
  else if (n =? 12)%nat then "\f"
  else if (n <? 32)%nat || (n =? 127)%nat
       then "\u00" +:+ String (hex_digit (n / 16)) (String (hex_digit (n mod 16)) "")
  else String c "".

Fixpoint encode_chars (s : string) : string :=
  match s with
  | "" => ""
  | String c r => encode_char c +:+ encode_chars r
  end.

Definition encode_string (s : string) : string := dquote +:+ encode_chars s +:+ dquote.

Definition indent_text (level : nat) : string := repeat_char " " (2 * level).

(** [json.dumps(v, indent=2)] at nesting depth [level]: one item per
    line, items separated by a comma, a key and its value by [": "]. *)
Fixpoint json_dumps (level : nat) (v : json) : string :=
  match v with
  | JNull => "null"
  | JBool true => "true"
  | JBool false => "false"
  | JInt z => str_int z
  | JString s => encode_string s
  | JArray [] => "[]"
  | JArray (x :: xs) =>
      "[" +:+ nl +:+ indent_text (S level) +:+ json_dumps (S level) x +:+
      (fix more (l : list json) : string :=
         match l with
         | [] => ""
         | y :: l' =>
             "," +:+ nl +:+ indent_text (S level) +:+ json_dumps (S level) y +:+ more l'
         end) xs +:+
      nl +:+ indent_text level +:+ "]"
  | JObject [] => "{}"
  | JObject ((k, x) :: ms) =>
      "{" +:+ nl +:+ indent_text (S level) +:+
      encode_string k +:+ ": " +:+ json_dumps (S level) x +:+
      (fix more (l : list (string * json)) : string :=
         match l with
         | [] => ""
         | (k', y) :: l' =>
             "," +:+ nl +:+ indent_text (S level) +:+
             encode_string k' +:+ ": " +:+ json_dumps (S level) y +:+ more l'
         end) ms +:+
      nl +:+ indent_text level +:+ "}"
  end.

(** *** [json.load] *)

Definition is_ws (c : ascii) : bool :=
  let n := nat_of_ascii c in
  (n =? 32)%nat || (n =? 9)%nat || (n =? 10)%nat || (n =? 13)%nat.

Fixpoint skip_ws (s : string) : string :=
  match s with
  | "" => ""
  | String c r => if is_ws c then skip_ws r else s
  end.

Definition hex_value (c : ascii) : option nat :=
  let n := nat_of_ascii c in
  if (48 <=? n)%nat && (n <=? 57)%nat then Some (n - 48)
  else if (97 <=? n)%nat && (n <=? 102)%nat then Some (n - 87)
  else if (65 <=? n)%nat && (n <=? 70)%nat then Some (n - 55)
  else None.

(** The character a one-letter escape stands for. *)
Definition unescape (c : ascii) : option ascii :=
  let n := nat_of_ascii c in
  if (n =? 34)%nat || (n =? 92)%nat || (n =? 47)%nat then Some c
  else if (n =? 98)%nat then Some (ascii_of_nat 8)
  else if (n =? 102)%nat then Some (ascii_of_nat 12)
  else if (n =? 110)%nat then Some (ascii_of_nat 10)
  else if (n =? 114)%nat then Some (ascii_of_nat 13)
  else if (n =? 116)%nat then Some (ascii_of_nat 9)
  else None.

(** What reading a JSON text gives; the text is the content of the
    file as bytes, read as UTF-8.  [Parsed v]: the decoder returns [v].
    [Invalid]: reading raises a [ValueError] (a [JSONDecodeError], or a
    [UnicodeDecodeError] when the bytes do not decode).  [Beyond]: the
    text leaves the fragment modelled here, and nothing is said about
    it; this is so for a number with a fraction or an exponent, for
    [NaN] and [Infinity], for a character outside ASCII in a string
    literal, and for containers nested deeper than [max_depth].
    Integers have no bound (as in the language; an interpreter may be
    set to refuse very long literals). *)
Inductive parsed (A : Type) : Type :=
| Parsed (a : A)
| Invalid
| Beyond.
Arguments Parsed {A} a.
Arguments Invalid {A}.
Arguments Beyond {A}.

Definition pbind {A B : Type} (m : parsed A) (k : A -> parsed B) : parsed B :=
  match m with
  | Parsed a => k a
  | Invalid => Invalid
  | Beyond => Beyond
  end.

(** The nesting depth up to which containers are read; the interpreter
    reads much deeper ones before its recursion limit stops it. *)
Definition max_depth : nat := 100.

(** The body of a string literal, after its opening quote, up to and
    including the closing quote.  A raw control character is refused. *)
Fixpoint parse_chars (s : string) : parsed (string * string) :=
  match s with
  | "" => Invalid
  | String c r =>
      let n := nat_of_ascii c in
      if (n =? 34)%nat then Parsed ("", r)
      else if (n =? 92)%nat then
        match r with
        | "" => Invalid
        | String e r' =>
            if (nat_of_ascii e =? 117)%nat then
              match r' with
              | String h1 (String h2 (String h3 (String h4 r''))) =>
                  match hex_value h1, hex_value h2, hex_value h3, hex_value h4 with
                  | Some a, Some b, Some c', Some d =>
                      let code := ((a * 16 + b) * 16 + c') * 16 + d in
                      if (code <? 128)%nat then
                        pbind (parse_chars r'')
                          (fun '(t, rest) => Parsed (String (ascii_of_nat code) t, rest))
                      else Beyond
                  | _, _, _, _ => Invalid
                  end
              | _ => Invalid
              end
            else
              match unescape e with
              | Some ch => pbind (parse_chars r') (fun '(t, rest) => Parsed (String ch t, rest))
              | None => Invalid
              end
        end
      else if (n <? 32)%nat then Invalid
      else if (128 <=? n)%nat then Beyond
      else pbind (parse_chars r) (fun '(t, rest) => Parsed (String c t, rest))
  end.

Definition digit_of (c : ascii) : option (Decimal.uint -> Decimal.uint) :=
  let n := nat_of_ascii c in
  if (n =? 48)%nat then Some Decimal.D0
  else if (n =? 49)%nat then Some Decimal.D1
  else if (n =? 50)%nat then Some Decimal.D2
  else if (n =? 51)%nat then Some Decimal.D3
  else if (n =? 52)%nat then Some Decimal.D4
  else if (n =? 53)%nat then Some Decimal.D5
  else if (n =? 54)%nat then Some Decimal.D6
  else if (n =? 55)%nat then Some Decimal.D7
  else if (n =? 56)%nat then Some Decimal.D8
  else if (n =? 57)%nat then Some Decimal.D9
  else None.

(** The longest run of decimal digits at the head of [s]. *)
Fixpoint take_digits (s : string) : Decimal.uint * string :=
  match s with
  | "" => (Decimal.Nil, "")
  | String c r =>
      match digit_of c with
      | Some d => let '(u, rest) := take_digits r in (d u, rest)
      | None => (Decimal.Nil, s)
      end
  end.

(** The integer part of a JSON number: a single [0], or a run of digits
    that does not start with [0]. *)
Definition parse_magnitude (s : string) : option (Decimal.uint * string) :=
  match s with
  | "" => None
  | String c r =>
      if (nat_of_ascii c =? 48)%nat then Some (Decimal.D0 Decimal.Nil, r)
      else
        match take_digits s with
        | (Decimal.Nil, _) => None
        | (u, rest) => Some (u, rest)
        end
  end.

(** A point or an exponent mark follows the integer part: the number
    may be a float. *)
Definition float_follows (s : string) : bool :=
  match s with
  | "" => false
  | String c _ =>
      let n := nat_of_ascii c in (n =? 46)%nat || (n =? 101)%nat || (n =? 69)%nat
  end.

(** A number at the head of [s], or one of the constants [NaN],
    [Infinity] and [-Infinity], which the decoder reads as floats. *)
Definition parse_number (s : string) : parsed (Z * string) :=
  if startswith s "NaN" || startswith s "Infinity" || startswith s "-Infinity" then Beyond
  else
    match s with
    | "" => Invalid
    | String c r =>
        if (nat_of_ascii c =? 45)%nat then
          match parse_magnitude r with
          | Some (u, rest) =>
              if float_follows rest then Beyond else Parsed (Z.of_int (Decimal.Neg u), rest)
          | None => Invalid
          end
        else
          match parse_magnitude s with
          | Some (u, rest) =>
              if float_follows rest then Beyond else Parsed (Z.of_int (Decimal.Pos u), rest)
          | None => Invalid
          end
    end.

(** One JSON value at the head of [s] and the text after it.  [depth]
    is the nesting depth still allowed; [fuel] bounds the number of
    values read, and [json_loads] starts it above the length of the
    text. *)
Fixpoint parse_value (fuel depth : nat) (s : string) : parsed (json * string) :=
  match fuel with
  | O => Beyond
  | S fuel' =>
      match s with
      | "" => Invalid
      | String c r =>
          let n := nat_of_ascii c in
          if (n =? 34)%nat then
            pbind (parse_chars r) (fun '(t, rest) => Parsed (JString t, rest))
          else if (n =? 123)%nat then
            match depth with
            | O => Beyond
            | S depth' =>
                match skip_ws r with
                | "" => Invalid
                | String c1 r1 =>
                    if (nat_of_ascii c1 =? 125)%nat then Parsed (JObject [], r1)
                    else
                      pbind (parse_members fuel' depth' (String c1 r1) [])
                        (fun '(ms, rest) => Parsed (JObject ms, rest))
                end
            end
          else if (n =? 91)%nat then
            match depth with
            | O => Beyond
            | S depth' =>
                match skip_ws r with
                | "" => Invalid
                | String c1 r1 =>
                    if (nat_of_ascii c1 =? 93)%nat then Parsed (JArray [], r1)
                    else
                      pbind (parse_items fuel' depth' (String c1 r1) [])
                        (fun '(xs, rest) => Parsed (JArray xs, rest))
                end
            end
          else
            match strip_prefix "null" s, strip_prefix "true" s, strip_prefix "false" s with
            | Some rest, _, _ => Parsed (JNull, rest)
            | _, Some rest, _ => Parsed (JBool true, rest)
            | _, _, Some rest => Parsed (JBool false, rest)
            | None, None, None =>
                pbind (parse_number s) (fun '(z, rest) => Parsed (JInt z, rest))
            end
      end
  end

(** The members of an object, from the first key on; [acc] is the
    dictionary of the members read so far. *)
with parse_members (fuel depth : nat) (s : string) (acc : list (string * json))
  : parsed (list (string * json) * string) :=
  match fuel with
  | O => Beyond
  | S fuel' =>
      match s with
      | "" => Invalid
      | String c r =>
          if negb (nat_of_ascii c =? 34)%nat then Invalid
          else
            pbind (parse_chars r) (fun '(k, r1) =>
              match skip_ws r1 with
              | "" => Invalid
              | String c2 r2 =>
                  if negb (nat_of_ascii c2 =? 58)%nat then Invalid
                  else
                    pbind (parse_value fuel' depth (skip_ws r2)) (fun '(v, r3) =>
                      let acc' := dict_set String.eqb k v acc in
                      match skip_ws r3 with
                      | "" => Invalid
                      | String c4 r4 =>
                          if (nat_of_ascii c4 =? 125)%nat then Parsed (acc', r4)
                          else if (nat_of_ascii c4 =? 44)%nat
                          then parse_members fuel' depth (skip_ws r4) acc'
                          else Invalid
                      end)
              end)
      end
  end

(** The items of an array, from the first on. *)
with parse_items (fuel depth : nat) (s : string) (acc : list json)
  : parsed (list json * string) :=
  match fuel with
  | O => Beyond
  | S fuel' =>
      pbind (parse_value fuel' depth s) (fun '(v, r1) =>
        let acc' := acc ++ [v] in
        match skip_ws r1 with
        | "" => Invalid
        | String c2 r2 =>
            if (nat_of_ascii c2 =? 93)%nat then Parsed (acc', r2)
            else if (nat_of_ascii c2 =? 44)%nat
            then parse_items fuel' depth (skip_ws r2) acc'
            else Invalid
        end)
  end.

(** [json.loads]: one value with white space around it and nothing
    else. *)
Definition json_loads (s : string) : parsed json :=
  pbind (parse_value (S (String.length s)) max_depth (skip_ws s)) (fun '(v, rest) =>
    if String.eqb (skip_ws rest) "" then Parsed v else Invalid).

(** *** State and environment of a run *)

Inductive gpio_call : Type :=
| GpioSetmode
| GpioSetup (pin : Z)
| GpioOutput (pin : Z) (high : bool)
| GpioCleanup.

Inductive cam_call : Type :=
| CamCreate
| CamConfigure
| CamStart
| CamCaptureArray
| CamStop.

(** What a run reads and writes: the regular files of the working
    directory (name to contents), the operator's pending answers, and
    the calls received by the GPIO library and by the camera. *)
Record state : Type := mkState {
  disk : gmap string string;
  stdin : list stdin_event;
  gpio : list gpio_call;
  cam : list cam_call
}.

Definition set_disk (d : gmap string string) (s : state) : state :=
  mkState d (stdin s) (gpio s) (cam s).
Definition set_stdin (l : list stdin_event) (s : state) : state :=
  mkState (disk s) l (gpio s) (cam s).
Definition log_gpio (c : gpio_call) (s : state) : state :=
  mkState (disk s) (stdin s) (gpio s ++ [c]) (cam s).
Definition log_cam (c : cam_call) (s : state) : state :=
  mkState (disk s) (stdin s) (gpio s) (cam s ++ [c]).

Abbreviation M := (Py.M state).

(** What one forward pass reports; the floating-point figures are kept
    as the text the format specifications produce.  [fps_text] is
    [None] when the measured time is zero, and [1/inference_time]
    divides by zero. *)
Record inference_report : Type := mkReport {
  predicted_index : Z;
  confidence_text : string;
  time_ms_text : string;
  fps_text : option string;
  slow : bool
}.

(** The calls of the script into the hardware libraries, and into
    NumPy for the random test image, in the order of the text. *)
Inductive site : Type :=
| AtSetmode
| AtSetup
| AtBuzzerOn
| AtBuzzerSleep
| AtBuzzerOff
| AtCleanup
| AtCameraCreate
| AtCameraConfiguration
| AtCameraConfigure
| AtCameraStart
| AtCameraWarmup
| AtCaptureArray
| AtImageWrite
| AtCameraStop
| AtTestInput.

(** What the run does not decide itself: the size of a file as
    [{size:.2f}] prints it, what importing a module raises, what the
    model file deserializes to, the message of the error the JSON
    decoder raises on a text, which of the calls listed in [site] raise
    and what, the picture the camera takes, what the forward pass
    gives. *)
Record env : Type := mkEnv {
  size_text : string -> string;
  import_fault : string -> option exn;
  load_model : result (list (option Z) * list (option Z));
  decode_error_text : string -> string;
  fault : site -> option exn;
  frame_jpeg : string;
  inference : result inference_report
}.

(** A bench on which everything works: a model of two classes for
    pictures of 224 by 224, every module installed, no call failing. *)
Definition nominal_env : env :=
  mkEnv (fun _ => "12.40") (fun _ => None)
        (Ok ([None; Some 224; Some 224; Some 3], [None; Some 2]))%Z
        (fun _ => "Expecting value: line 1 column 1 (char 0)")
        (fun _ => None) ""
        (Ok (mkReport 1 "97.0" "120.0" (Some "8.3") false)).

(** *** Helpers of the script *)

Definition print_header (text : string) : M unit :=
  print (nl +:+ repeat_char "=" 60) ;;
  print ("  " +:+ text) ;;
  print (repeat_char "=" 60).

Definition esc : string := String "027"%char "".

Definition symbol_of (status : string) : string :=
  if String.eqb status "pass" then "✓"
  else if String.eqb status "fail" then "✗"
  else if String.eqb status "warn" then "⚠"
  else if String.eqb status "info" then "ℹ"
  else "•".

Definition color_of (status : string) : string :=
  if String.eqb status "pass" then esc +:+ "[92m"
  else if String.eqb status "fail" then esc +:+ "[91m"
  else if String.eqb status "warn" then esc +:+ "[93m"
  else if String.eqb status "info" then esc +:+ "[94m"
  else "".

(** The line [print_status] prints: colour, symbol, message, reset. *)
Definition status_line (status message : string) : string :=
  color_of status +:+ symbol_of status +:+ " " +:+ message +:+ esc +:+ "[0m".

Definition print_status (status message : string) : M unit :=
  print (status_line status message).

(** [input(prompt)] *)
Definition input (prompt : string) : M string :=
  print prompt ;;
  s <- get ;;
  match stdin s with
  | [] => raise EOFError
  | CtrlC :: rest => modify (set_stdin rest) ;; raise KeyboardInterrupt
  | Line l :: rest => modify (set_stdin rest) ;; ret l
  end.

(** [sep.join(l)] *)
Fixpoint join_with (sep : string) (l : list string) : string :=
  match l with
  | [] => ""
  | [x] => x
  | x :: l' => x +:+ sep +:+ join_with sep l'
  end.

(** [repr] of an ASCII string: between single quotes, or between
    double quotes when it holds a single quote and no double quote; the
    backslash, the quote in use and the control characters escaped. *)
Definition squote : ascii := "'"%char.

Definition has_char (c : ascii) (s : string) : bool :=
  existsb (Ascii.eqb c) (list_ascii_of_string s).

Definition repr_char (quote c : ascii) : string :=
  let n := nat_of_ascii c in
  if (n =? 92)%nat then "\\"
  else if Ascii.eqb c quote then String "\" (String c "")
  else if (n =? 9)%nat then "\t"
  else if (n =? 10)%nat then "\n"
  else if (n =? 13)%nat then "\r"
  else if (n <? 32)%nat || (n =? 127)%nat
       then "\x" +:+ String (hex_digit (n / 16)) (String (hex_digit (n mod 16)) "")
  else String c "".

Fixpoint repr_chars (quote : ascii) (s : string) : string :=
  match s with
  | "" => ""
  | String c r => repr_char quote c +:+ repr_chars quote r
  end.

Definition repr_str (s : string) : string :=
  let quote :=
    if has_char squote s && negb (has_char "034"%char s) then "034"%char else squote in
  String quote (repr_chars quote s) +:+ String quote "".

Definition repr_list (l : list string) : string :=
  "[" +:+ join_with ", " (map repr_str l) +:+ "]".

(** [repr] of a value that [json.load] returned. *)
Fixpoint repr_json (v : json) : string :=
  match v with
  | JNull => "None"
  | JBool true => "True"
  | JBool false => "False"
  | JInt z => str_int z
  | JString s => repr_str s
  | JArray items => "[" +:+ join_with ", " (map repr_json items) +:+ "]"
  | JObject members =>
      "{" +:+
      join_with ", " (map (fun kv => repr_str (fst kv) +:+ ": " +:+ repr_json (snd kv)) members)
      +:+ "}"
  end.
Definition repr_dict (d : list (string * json)) : string := repr_json (JObject d).
Definition repr_dim (d : option Z) : string :=
  match d with Some z => str_int z | None => "None" end.
Definition repr_shape (t : list (option Z)) : string :=
  match t with
  | [d] => "(" +:+ repr_dim d +:+ ",)"
  | _ => "(" +:+ join_with ", " (map repr_dim t) +:+ ")"
  end.

(** [s.lower() == 'y'] *)
Definition is_yes (s : string) : bool := String.eqb s "y" || String.eqb s "Y".

Definition os_path_exists (s : state) (filename : string) : bool :=
  match disk s !! filename with Some _ => true | None => false end.

(** *** TEST 1: required files *)

Definition files_to_check : list (string * string) :=
  [ ("object_identifier_model.h5", "Trained model file");
    ("class_indices.json", "Class mapping file (optional)") ].

Fixpoint check_files (e : env) (l : list (string * string)) (files_found : gmap string bool)
  : M (gmap string bool) :=
  match l with
  | [] => ret files_found
  | (filename, description) :: l' =>
      s <- get ;;
      if os_path_exists s filename then
        print_status "pass"
          (filename +:+ " found (" +:+ size_text e filename +:+ " MB) - " +:+ description) ;;
        check_files e l' (<[filename := true]> files_found)
      else
        print_status (if endswith filename ".h5" then "fail" else "warn")
          (filename +:+ " NOT found - " +:+ description) ;;
        check_files e l' (<[filename := false]> files_found)
  end.

Definition test1 (e : env) : M unit :=
  print_header "TEST 1: Checking Required Files" ;;
  files_found <- check_files e files_to_check ∅ ;;
  match files_found !! "object_identifier_model.h5" with
  | None => raise (KeyError (repr_str "object_identifier_model.h5"))
  | Some true => ret tt
  | Some false =>
      print_status "fail" "CRITICAL: Model file is required!" ;;
      print (nl +:+ "To transfer your model to Raspberry Pi:") ;;
      print "  1. From another computer: scp object_identifier_model.h5 pi@raspberrypi.local:~/" ;;
      print "  2. Or use USB drive, email, cloud storage, etc." ;;
      raise (SystemExit 1)
  end.

(** *** TEST 2: dependencies *)

Definition dependencies : list (string * string) :=
  [ ("numpy", "Numerical operations");
    ("cv2", "OpenCV for image processing");
    ("tensorflow", "TensorFlow for model inference");
    ("picamera2", "Raspberry Pi camera interface");
    ("RPi.GPIO", "GPIO control for buzzer") ].

(** [except ImportError] *)
Definition is_ImportError (x : exn) : bool :=
  match x with ImportError _ => true | _ => false end.

Fixpoint check_dependencies (e : env) (l : list (string * string)) (missing_deps : list string)
  : M (list string) :=
  match l with
  | [] => ret missing_deps
  | (module, description) :: l' =>
      match import_fault e module with
      | None =>
          print_status "pass" (module +:+ " - " +:+ description) ;;
          check_dependencies e l' missing_deps
      | Some x =>
          if is_ImportError x then
            print_status "fail" (module +:+ " NOT installed - " +:+ description) ;;
            check_dependencies e l' (missing_deps ++ [module])
          else raise x
      end
  end.

Definition test2 (e : env) : M unit :=
  print_header "TEST 2: Checking Python Dependencies" ;;
  missing_deps <- check_dependencies e dependencies [] ;;
  match missing_deps with
  | [] => ret tt
  | _ =>
      print_status "fail" ("Missing dependencies: " +:+ join_with ", " missing_deps) ;;
      print (nl +:+ "Install with:") ;;
      print "  pip3 install tensorflow opencv-python picamera2 RPi.GPIO numpy" ;;
      raise (SystemExit 1)
  end.

(** *** TEST 3: model load *)

(** [except Exception as e: handler e] *)
Definition except_Exception {A} (handler : exn -> M A) : exn -> option (M A) :=
  fun x => if is_Exception x then Some (handler x) else None.

(** The result is [(input_shape, num_classes)]. *)
Definition test3 (e : env) : M (list (option Z) * option Z) :=
  print_header "TEST 3: Loading Model" ;;
  try_except
    (print_status "info" "Loading model (this may take 30-60 seconds)..." ;;
     match load_model e with
     | Raise x => raise x
     | Ok (input_shape, output_shape) =>
         print_status "pass" "Model loaded successfully!" ;;
         match last (A := option Z) output_shape with
         | None => raise (IndexError "tuple index out of range")
         | Some num_classes =>
             print_status "info" ("Input shape: " +:+ repr_shape input_shape) ;;
             print_status "info" ("Output shape: " +:+ repr_shape output_shape) ;;
             print_status "info" ("Number of classes: " +:+ repr_dim num_classes) ;;
             ret (input_shape, num_classes)
         end
     end)
    (except_Exception (fun x =>
       print_status "fail" ("Failed to load model: " +:+ exn_text x) ;;
       raise (SystemExit 1))).

(** *** TEST 4: class indices *)

Definition label_map_file : string := "class_indices.json".

(** The default map of lines 123-126. *)
Definition synthesized_class_indices (num_classes : Z) : list (string * json) :=
  if (num_classes =? 2)%Z then [("dang", JInt 0); ("ndan", JInt 1)]
  else dict_of_pairs String.eqb
         (map (fun i => ("class_" +:+ str_int i, JInt i)) (py_range num_classes)).

(** [json.load(f)] on a file whose content is [text]. *)
Definition json_load (e : env) (text : string) : M json :=
  match json_loads text with
  | Parsed v => ret v
  | Invalid => raise (ValueError (decode_error_text e text))
  | Beyond => raise Unmodelled
  end.

(** Lines 109-132.  The result is the value of [class_indices] when
    control leaves the block. *)
Definition test4 (e : env) (num_classes : option Z) : M json :=
  print_header "TEST 4: Class Indices" ;;
  s <- get ;;
  match disk s !! label_map_file with
  | Some text =>
      try_except
        (class_indices <- json_load e text ;;
         print_status "pass" "class_indices.json loaded" ;;
         match class_indices with
         | JObject members =>
             print_status "info" ("Classes found: " +:+ repr_list (map fst members)) ;;
             ret class_indices
         | JNull => raise (AttributeError "'NoneType' object has no attribute 'keys'")
         | JBool _ => raise (AttributeError "'bool' object has no attribute 'keys'")
         | JInt _ => raise (AttributeError "'int' object has no attribute 'keys'")
         | JString _ => raise (AttributeError "'str' object has no attribute 'keys'")
         | JArray _ => raise (AttributeError "'list' object has no attribute 'keys'")
         end)
        (except_Exception (fun x =>
           print_status "fail" ("Error reading class_indices.json: " +:+ exn_text x) ;;
           ret JNull))
  | None =>
      print_status "warn" "class_indices.json not found - creating default" ;;
      print_status "info" "Please verify these match your training data!" ;;
      class_indices <-
        match num_classes with
        | Some n => ret (synthesized_class_indices n)
        | None => raise (TypeError "'NoneType' object cannot be interpreted as an integer")
        end ;;
      modify (fun s => set_disk (<[label_map_file := json_dumps 0 (JObject class_indices)]> (disk s)) s) ;;
      print_status "info" ("Created: " +:+ repr_dict class_indices) ;;
      print_status "warn" "Review and edit class_indices.json if needed!" ;;
      ret (JObject class_indices)
  end.

(** Values that can be dictionary keys, and [==] between them ([True]
    and [1] are the same key). *)
Definition hashable (v : json) : bool :=
  match v with
  | JArray _ | JObject _ => false
  | _ => true
  end.

Definition key_eqb (a b : json) : bool :=
  match a, b with
  | JNull, JNull => true
  | JString x, JString y => String.eqb x y
  | JInt x, JInt y => Z.eqb x y
  | JBool x, JBool y => Bool.eqb x y
  | JInt x, JBool y | JBool y, JInt x => Z.eqb x (if y then 1 else 0)
  | _, _ => false
  end.

Fixpoint invert_members (members : list (string * json)) (acc : list (json * string))
  : M (list (json * string)) :=
  match members with
  | [] => ret acc
  | (k, v) :: rest =>
      if hashable v then invert_members rest (dict_set key_eqb v k acc)
      else raise (TypeError (match v with
                             | JArray _ => "unhashable type: 'list'"
                             | _ => "unhashable type: 'dict'"
                             end))
  end.

(** Line 134: [index_to_class = {v: k for k, v in class_indices.items()}] *)
Definition build_index_to_class (class_indices : json) : M (list (json * string)) :=
  match class_indices with
  | JObject members => invert_members members []
  | JNull => raise (AttributeError "'NoneType' object has no attribute 'items'")
  | JBool _ => raise (AttributeError "'bool' object has no attribute 'items'")
  | JInt _ => raise (AttributeError "'int' object has no attribute 'items'")
  | JString _ => raise (AttributeError "'str' object has no attribute 'items'")
  | JArray _ => raise (AttributeError "'list' object has no attribute 'items'")
  end.

(** *** TEST 5: GPIO and buzzer *)

Definition BUZZER_PIN : Z := 17.

Definition test5 (e : env) : M unit :=
  print_header "TEST 5: GPIO and Buzzer" ;;
  try_except
    (modify (log_gpio GpioSetmode) ;;
     may_raise (fault e AtSetmode) ;;
     modify (log_gpio (GpioSetup BUZZER_PIN)) ;;
     may_raise (fault e AtSetup) ;;
     print_status "pass" ("GPIO initialized (using pin " +:+ str_int BUZZER_PIN +:+ ")") ;;
     response <- input (nl +:+ "Test buzzer? This will turn it ON for 1 second (y/n): ") ;;
     (if is_yes response then
        print_status "info" "Buzzer ON..." ;;
        modify (log_gpio (GpioOutput BUZZER_PIN true)) ;;
        may_raise (fault e AtBuzzerOn) ;;
        may_raise (fault e AtBuzzerSleep) ;;
        modify (log_gpio (GpioOutput BUZZER_PIN false)) ;;
        may_raise (fault e AtBuzzerOff) ;;
        print_status "info" "Buzzer OFF" ;;
        heard <- input "Did you hear the buzzer? (y/n): " ;;
        if is_yes heard then print_status "pass" "Buzzer working!"
        else
          print_status "warn" "Buzzer not heard - check wiring" ;;
          print "       Wiring: GPIO17 (Pin 11) → Buzzer (+)" ;;
          print "               GND (Pin 6) → Buzzer (-)"
      else ret tt) ;;
     modify (log_gpio GpioCleanup) ;;
     may_raise (fault e AtCleanup))
    (except_Exception (fun x =>
       print_status "fail" ("GPIO error: " +:+ exn_text x) ;;
       print_status "info" "Make sure you're running on Raspberry Pi with GPIO access")).

(** *** TEST 6: camera *)

Definition test6 (e : env) : M unit :=
  print_header "TEST 6: Camera" ;;
  try_except
    (print_status "info" "Initializing camera..." ;;
     modify (log_cam CamCreate) ;;
     may_raise (fault e AtCameraCreate) ;;
     may_raise (fault e AtCameraConfiguration) ;;
     modify (log_cam CamConfigure) ;;
     may_raise (fault e AtCameraConfigure) ;;
     modify (log_cam CamStart) ;;
     may_raise (fault e AtCameraStart) ;;
     may_raise (fault e AtCameraWarmup) ;;
     print_status "pass" "Camera initialized" ;;
     print_status "info" "Capturing test image..." ;;
     modify (log_cam CamCaptureArray) ;;
     may_raise (fault e AtCaptureArray) ;;
     may_raise (fault e AtImageWrite) ;;
     modify (fun s => set_disk (<["test_capture.jpg" := frame_jpeg e]> (disk s)) s) ;;
     print_status "pass" "Test image saved as test_capture.jpg" ;;
     modify (log_cam CamStop) ;;
     may_raise (fault e AtCameraStop))
    (except_Exception (fun x =>
       print_status "fail" ("Camera error: " +:+ exn_text x) ;;
       print_status "info" "Enable camera: sudo raspi-config → Interface Options → Camera" ;;
       print_status "info" "Then reboot: sudo reboot")).

(** *** TEST 7: inference *)

Definition test7 (e : env) (input_shape : list (option Z))
    (index_to_class : list (json * string)) : M unit :=
  print_header "TEST 7: Model Inference Test" ;;
  try_except
    (print_status "info" "Creating test input..." ;;
     match input_shape !! 1%nat with
     | None => raise (IndexError "tuple index out of range")
     | Some None => raise (TypeError "'NoneType' object cannot be interpreted as an integer")
     | Some (Some img_size) =>
         may_raise (fault e AtTestInput) ;;
         print_status "info" "Running inference..." ;;
         match inference e with
         | Raise x => raise x
         | Ok r =>
             match dict_get key_eqb (JInt (predicted_index r)) index_to_class with
             | None => raise (KeyError (str_int (predicted_index r)))
             | Some predicted_class =>
                 print_status "pass" "Inference successful!" ;;
                 print_status "info" ("Inference time: " +:+ time_ms_text r +:+ " ms") ;;
                 print_status "info"
                   ("Predicted: " +:+ predicted_class +:+ " (" +:+ confidence_text r +:+ "%)") ;;
                 match fps_text r with
                 | None => raise (ZeroDivisionError "float division by zero")
                 | Some fps =>
                     print_status "info" ("Expected FPS: ~" +:+ fps) ;;
                     if slow r then
                       print_status "warn" "Inference is slow - consider:" ;;
                       print "       - Converting to TensorFlow Lite" ;;
                       print "       - Using smaller image size" ;;
                       print "       - Reducing model complexity"
                     else ret tt
                 end
             end
         end
     end)
    (except_Exception (fun x => print_status "fail" ("Inference error: " +:+ exn_text x))).

Definition summary : M unit :=
  print_header "TEST SUMMARY" ;;
  print_status "pass" "All critical tests passed!" ;;
  print (nl +:+ "You're ready to run the full application:") ;;
  print "  python3 rpi_object_identifier.py" ;;
  print (nl +:+ "Configuration tips:") ;;
  print "  - Edit BUZZER_PIN if using different GPIO pin" ;;
  print "  - Adjust CONFIDENCE_THRESHOLD (default: 0.5)" ;;
  print "  - Set DISPLAY_WINDOW=False for headless operation" ;;
  print "  - Reduce INFERENCE_DELAY for faster predictions" ;;
  print (nl +:+ repeat_char "=" 60) ;;
  print "  Testing Complete!" ;;
  print (repeat_char "=" 60 +:+ nl).

(** *** The script *)

Definition Load_Model_py (e : env) : M unit :=
  test1 e ;;
  test2 e ;;
  r <- test3 e ;;
  let '(input_shape, num_classes) := r in
  class_indices <- test4 e num_classes ;;
  index_to_class <- build_index_to_class class_indices ;;
  test5 e ;;
  test6 e ;;
  test7 e input_shape index_to_class ;;
  summary.

(** How a run of the interpreter ends. *)
Record process : Type := mkProcess {
  exit_status : Z;
  uncaught : option exn;
  console : list string;
  final : state
}.

Definition run (e : env) (s0 : state) : process :=
  let o := Load_Model_py e s0 in
  match res o with
  | Ok _ => mkProcess 0%Z None (out o) (st o)
  | Raise x => mkProcess (exit_status_of x) (Some x) (out o) (st o)
  end.

Definition model_file : string := "object_identifier_model.h5".

(** The line TEST 1 prints about the label-map file. *)
Definition label_map_line (e : env) (s : state) : string :=
  if os_path_exists s label_map_file
  then status_line "pass"
         (label_map_file +:+ " found (" +:+ size_text e label_map_file +:+ " MB) - " +:+
          "Class mapping file (optional)")
  else status_line "warn"
         (label_map_file +:+ " NOT found - " +:+ "Class mapping file (optional)").

(** The headers of the checks a console shows, in order. *)
Definition is_test_header (line : string) : bool := startswith line "  TEST ".
Definition checks_started (console : list string) : list string :=
  List.filter is_test_header console.

(** *** Notions the statements about the label-map file use *)

(** The text that follows a number does not go on with a digit, a
    fraction or an exponent. *)
Definition ends_number (rest : string) : Prop :=
  match rest with
  | "" => True
  | String c _ => digit_of c = None /\ float_follows rest = false
  end.

(** The first character of a number: a digit or the minus sign. *)
Definition number_head (c : ascii) : Prop :=
  In c ["-"; "0"; "1"; "2"; "3"; "4"; "5"; "6"; "7"; "8"; "9"]%char.

(** The pairs line 126 builds for [n] classes, before they enter the
    dictionary. *)
Definition class_i_pairs (n : nat) : list (string * json) :=
  map (fun i => ("class_" +:+ str_int (Z.of_nat i), JInt (Z.of_nat i))) (seq 0 n).

(** Every character of the string is an ASCII character. *)
Fixpoint ascii_only (s : string) : bool :=
  match s with
  | "" => true
  | String c r => (nat_of_ascii c <? 128)%nat && ascii_only r
  end.

(** A dictionary from names to integers, as a JSON object. *)
Definition int_entry (kv : string * Z) : string * json := (fst kv, JInt (snd kv)).

(** The members after the first, as [json.dump] writes them at the top
    level. *)
Fixpoint render_more (ms : list (string * Z)) : string :=
  match ms with
  | [] => ""
  | (k, z) :: l =>
      "," +:+ nl +:+ "  " +:+ encode_string k +:+ ": " +:+ str_int z +:+ render_more l
  end.

End Diagnostic.

(** * Properties *)

(** ** Facts about the string and path functions *)


(** * Properties *)

(** ** Facts about the string and path functions *)

Module PyFacts.
Import Py.
#[local] Arguments String.append !s1 s2 : simpl nomatch.
#[local] Arguments Ascii.eqb : simpl never.

Lemma append_nil_r (s : string) : s +:+ "" = s.
Proof. induction s as [|c s IH]; simpl; [reflexivity | now rewrite IH]. Qed.

Lemma append_assoc (a b c : string) : (a +:+ b) +:+ c = a +:+ (b +:+ c).
Proof. induction a as [|x a IH]; simpl; [reflexivity | now rewrite IH]. Qed.

Lemma has_sep_app (a b : string) : has_sep (a +:+ b) = has_sep a || has_sep b.
Proof.
  induction a as [|x a IH]; simpl; [reflexivity |].
  rewrite IH. now rewrite orb_assoc.
Qed.

Lemma strip_prefix_app (p s : string) : strip_prefix p (p +:+ s) = Some s.
Proof.
  induction p as [|x p IH]; simpl; [reflexivity |].
  now rewrite Ascii.eqb_refl.
Qed.





Lemma startswith_sep_false (s : string) : has_sep s = false -> startswith s "/" = false.
Proof.
  destruct s as [|c s]; [reflexivity |]. simpl. intros H.
  apply orb_false_iff in H as [H _]. unfold startswith. simpl.
  fold sep. rewrite Ascii.eqb_sym. now rewrite H.
Qed.

Lemma cut_last_sep_no_sep (n : string) : has_sep n = false -> cut_last_sep n = None.
Proof.
  induction n as [|c n IH]; simpl; [reflexivity |]. intros H.
  apply orb_false_iff in H as [Hc Hn]. now rewrite (IH Hn), Hc.
Qed.

Lemma cut_last_sep_app (a n : string) :
  has_sep n = false -> cut_last_sep (a +:+ "/" +:+ n) = Some (a +:+ "/", n).
Proof.
  intros Hn. induction a as [|c a IH]; simpl in *.
  - now rewrite (cut_last_sep_no_sep _ Hn).
  - now rewrite IH.
Qed.



Lemma rstrip_sep_plain (s : string) : ends_plain s -> rstrip_sep s = s.
Proof.
  intros (a & c & -> & Hc).
  induction a as [|x a IH]; simpl.
  - now rewrite Hc.
  - rewrite IH. destruct a; simpl; now rewrite andb_false_r.
Qed.

Lemma rstrip_sep_snoc (s : string) : rstrip_sep (s +:+ "/") = rstrip_sep s.
Proof.
  induction s as [|x s IH]; simpl; [reflexivity |]. now rewrite IH.
Qed.

Lemma ends_plain_nonempty (s : string) : ends_plain s -> s <> "".
Proof. intros (a & c & -> & _). now destruct a. Qed.

Lemma endswith_sep_plain (s : string) : ends_plain s -> endswith s "/" = false.
Proof.
  intros (a & c & -> & Hc).
  induction a as [|x a IH]; simpl.
  - unfold sep in Hc. rewrite Hc. reflexivity.
  - rewrite IH, orb_false_r.
    destruct (Ascii.eqb x "/"); [| reflexivity].
    now destruct a.
Qed.


(** Joining a directory that does not end with the separator and a name
    without separator, then taking the path apart again. *)
Lemma path_join_plain (d n : string) :
  ends_plain d -> has_sep n = false -> path_join d n = d +:+ "/" +:+ n.
Proof.
  intros Hd Hn. unfold path_join.
  rewrite (startswith_sep_false _ Hn), (endswith_sep_plain _ Hd), orb_false_r.
  destruct (String.eqb_spec d "") as [->|]; [| reflexivity].
  now apply ends_plain_nonempty in Hd.
Qed.

Lemma path_split_plain (d n : string) :
  ends_plain d -> has_sep n = false -> path_split (d +:+ "/" +:+ n) = (d, n).
Proof.
  intros Hd Hn. unfold path_split.
  rewrite (cut_last_sep_app _ _ Hn), rstrip_sep_snoc, (rstrip_sep_plain _ Hd).
  destruct (String.eqb_spec d "") as [->|]; [| reflexivity].
  now apply ends_plain_nonempty in Hd.
Qed.

Lemma dirname_plain (d n : string) :
  ends_plain d -> has_sep n = false -> dirname (d +:+ "/" +:+ n) = d.
Proof. intros. unfold dirname. now rewrite path_split_plain. Qed.




Lemma length_append (a b : string) :
  String.length (a +:+ b) = (String.length a + String.length b)%nat.
Proof.
  induction a as [|c a IH]; cbn [String.append String.length]; [reflexivity | now rewrite IH].
Qed.

End PyFacts.

(** ** Facts about the effect monad *)

Module MonadFacts.
Import Py.
Local Open Scope py_scope.

Section Projections.
Context {S A B : Type}.

Lemma res_bind (m : M S A) (k : A -> M S B) (s : S) :
    res (bind m k s) =
    match res (m s) with Ok a => res (k a (st (m s))) | Raise e => Raise e end.
Proof. unfold bind. now destruct (res (m s)). Qed.

Lemma st_bind (m : M S A) (k : A -> M S B) (s : S) :
    st (bind m k s) =
    match res (m s) with Ok a => st (k a (st (m s))) | Raise e => st (m s) end.
Proof. unfold bind. now destruct (res (m s)). Qed.

Lemma out_bind (m : M S A) (k : A -> M S B) (s : S) :
    out (bind m k s) =
    match res (m s) with Ok a => out (m s) ++ out (k a (st (m s))) | Raise e => out (m s) end.
Proof. unfold bind. now destruct (res (m s)). Qed.

  (** Running [m] then [k] when [m] is known to return. *)
Lemma bind_Ok (m : M S A) (k : A -> M S B) (s s' : S) (a : A) (o : list string) :
    m s = mkOutcome (Ok a) s' o ->
    bind m k s = mkOutcome (res (k a s')) (st (k a s')) (o ++ out (k a s')).
Proof. intros H. unfold bind. now rewrite H. Qed.

Lemma bind_Raise (m : M S A) (k : A -> M S B) (s s' : S) (e : exn) (o : list string) :
    m s = mkOutcome (Raise e) s' o ->
    bind m k s = mkOutcome (Raise e) s' o.
Proof. intros H. unfold bind. now rewrite H. Qed.

(** The monad laws, on the run of a computation, and the run of each
    primitive followed by a continuation. *)
Lemma bind_ret (a : A) (k : A -> M S B) (s : S) : bind (ret a) k s = k a s.
Proof. unfold bind, ret. cbn. now destruct (k a s). Qed.

Lemma bind_raise (e : exn) (k : A -> M S B) (s : S) :
  bind (raise e) k s = mkOutcome (Raise e) s [].
Proof. reflexivity. Qed.

Lemma bind_get (k : S -> M S B) (s : S) : bind get k s = k s s.
Proof. unfold bind, get. cbn. now destruct (k s s). Qed.

Lemma bind_modify (f : S -> S) (k : unit -> M S B) (s : S) :
  bind (modify f) k s = k tt (f s).
Proof. unfold bind, modify. cbn. now destruct (k tt (f s)). Qed.

Lemma bind_print (l : string) (k : unit -> M S B) (s : S) :
  bind (print l) k s = mkOutcome (res (k tt s)) (st (k tt s)) (l :: out (k tt s)).
Proof. reflexivity. Qed.

Lemma bind_may_raise_None (k : unit -> M S B) (s : S) :
  bind (may_raise None) k s = k tt s.
Proof. unfold may_raise, bind, ret. cbn. now destruct (k tt s). Qed.
End Projections.

Lemma try_except_Ok {S A : Type} (body : M S A) (handler : exn -> option (M S A))
    (s s' : S) (a : A) (o : list string) :
  body s = mkOutcome (Ok a) s' o -> try_except body handler s = mkOutcome (Ok a) s' o.
Proof. intros H. unfold try_except. now rewrite H. Qed.

Lemma try_except_caught {S A : Type} (body : M S A) (handler : exn -> option (M S A))
    (s s' : S) (e : exn) (o : list string) (h : M S A) :
  body s = mkOutcome (Raise e) s' o -> handler e = Some h ->
  try_except body handler s = mkOutcome (res (h s')) (st (h s')) (o ++ out (h s')).
Proof. intros H He. unfold try_except. rewrite H. cbn. now rewrite He. Qed.

Lemma try_except_passed {S A : Type} (body : M S A) (handler : exn -> option (M S A))
    (s s' : S) (e : exn) (o : list string) :
  body s = mkOutcome (Raise e) s' o -> handler e = None ->
  try_except body handler s = mkOutcome (Raise e) s' o.
Proof. intros H He. unfold try_except. rewrite H. cbn. now rewrite He. Qed.

Lemma bind_assoc {S A B C : Type} (m : M S A) (k1 : A -> M S B) (k2 : B -> M S C) (s : S) :
  bind (bind m k1) k2 s = bind m (fun a => bind (k1 a) k2) s.
Proof.
  unfold bind. destruct (m s) as [[a|e] s1 o1]; cbn; [| reflexivity].
  destruct (k1 a s1) as [[b|e] s2 o2]; cbn; [| reflexivity].
  now rewrite app_assoc.
Qed.

(** Runs the primitives at the head of a computation. *)
Ltac mrun :=
  repeat first
    [ rewrite bind_assoc | rewrite bind_print | rewrite bind_get | rewrite bind_ret
    | rewrite bind_raise | rewrite bind_modify | rewrite bind_may_raise_None ];
  cbn [res st out].

(** A preorder between the state before and the state after that every
    step of a computation keeps: the computation keeps it as a whole,
    whether it returns or raises. *)
Section Steps.
Context {S : Type} (R : relation S) `{!PreOrder R}.

Lemma steps_ret {A} (a : A) : steps R (ret a).
Proof. intros s. reflexivity. Qed.

Lemma steps_raise {A} (e : exn) : steps R (raise (A := A) e).
Proof. intros s. reflexivity. Qed.

Lemma steps_print (l : string) : steps R (print l).
Proof. intros s. reflexivity. Qed.

Lemma steps_get : steps R get.
Proof. intros s. reflexivity. Qed.

Lemma steps_may_raise (f : option exn) : steps R (may_raise f).
Proof. intros s. destruct f; reflexivity. Qed.

Lemma steps_modify (f : S -> S) : (forall s, R s (f s)) -> steps R (modify f).
Proof. intros H s. apply H. Qed.

Lemma steps_bind {A B} (m : M S A) (k : A -> M S B) :
    steps R m -> (forall a, steps R (k a)) -> steps R (bind m k).
Proof.
    intros Hm Hk s. rewrite st_bind.
    destruct (res (m s)) as [a|e]; [| apply Hm].
    etransitivity; [apply Hm | apply Hk].
Qed.

Lemma steps_try_finally {A} (body : M S A) (fin : M S unit) :
    steps R body -> steps R fin -> steps R (try_finally body fin).
Proof.
    intros Hb Hf s. unfold try_finally.
    destruct (res (fin (st (body s)))); simpl;
      (etransitivity; [apply Hb | apply Hf]).
Qed.

Lemma steps_try_except {A} (body : M S A) (handler : exn -> option (M S A)) :
    steps R body -> (forall e h, handler e = Some h -> steps R h) ->
    steps R (try_except body handler).
Proof.
    intros Hb Hh s. unfold try_except.
    destruct (res (body s)) as [a|e] eqn:E; [apply Hb |].
    destruct (handler e) as [h|] eqn:Eh; [| apply Hb].
    simpl. etransitivity; [apply Hb | apply (Hh _ _ Eh)].
Qed.

Lemma steps_for_each {A} (l : list A) (body : A -> M S unit) :
    (forall x, steps R (body x)) -> steps R (for_each l body).
Proof.
    intros Hb. induction l as [|x l IH]; simpl.
    - apply steps_ret.
    - apply steps_bind; [apply Hb | intros _; apply IH].
Qed.
End Steps.

(** The rules of [triple], one for each way of building a computation. *)
Section Triples.
Context {S : Type} (I : S -> Prop) (P : exn -> Prop).

Lemma triple_ret {A} (a : A) (Q : A -> Prop) : Q a -> triple I (ret a) Q P.
Proof. intros H s Hs. now split. Qed.

Lemma triple_raise {A} (e : exn) (Q : A -> Prop) : P e -> triple I (raise e) Q P.
Proof. intros H s Hs. now split. Qed.

Lemma triple_print (l : string) (Q : unit -> Prop) : Q tt -> triple I (print l) Q P.
Proof. intros H s Hs. now split. Qed.

Lemma triple_get (Q : S -> Prop) : (forall s, I s -> Q s) -> triple I get Q P.
Proof. intros H s Hs. split; [exact Hs | now apply H]. Qed.

Lemma triple_modify (f : S -> S) (Q : unit -> Prop) :
    (forall s, I s -> I (f s)) -> Q tt -> triple I (modify f) Q P.
Proof. intros Hf H s Hs. split; [now apply Hf | exact H]. Qed.

Lemma triple_may_raise (f : option exn) (Q : unit -> Prop) :
    fault_in P f -> Q tt -> triple I (may_raise f) Q P.
Proof.
    intros Hf H s Hs. destruct f as [e|]; (split; [exact Hs |]); [now apply Hf | exact H].
Qed.

Lemma triple_bind {A B} (m : M S A) (k : A -> M S B) (Q : A -> Prop) (Q' : B -> Prop) :
    triple I m Q P -> (forall a, Q a -> triple I (k a) Q' P) -> triple I (bind m k) Q' P.
Proof.
    intros Hm Hk s Hs. destruct (Hm s Hs) as [H1 H2].
    rewrite st_bind, res_bind. destruct (res (m s)) as [a|e]; [| now split].
    apply (Hk a H2 _ H1).
Qed.

Lemma triple_weaken {A} (m : M S A) (Q Q' : A -> Prop) :
    triple I m Q P -> (forall a, Q a -> Q' a) -> triple I m Q' P.
Proof.
    intros Hm HQ s Hs. destruct (Hm s Hs) as [H1 H2]. split; [exact H1 |].
    destruct (res (m s)); [now apply HQ | exact H2].
Qed.

Lemma triple_try_except {A} (body : M S A) (handler : exn -> option (M S A))
      (Q : A -> Prop) (P0 : exn -> Prop) :
    triple I body Q P0 ->
    (forall e, P0 e ->
       match handler e with Some h => triple I h Q P | None => P e end) ->
    triple I (try_except body handler) Q P.
Proof.
    intros Hb Hh s Hs. destruct (Hb s Hs) as [H1 H2]. unfold try_except.
    destruct (res (body s)) as [a|e] eqn:E.
    - rewrite E. now split.
    - specialize (Hh e H2). destruct (handler e) as [h|].
      + cbn [st res]. apply (Hh _ H1).
      + rewrite E. now split.
Qed.

Lemma triple_try_finally {A} (body : M S A) (fin : M S unit) (Q : A -> Prop) :
    triple I body Q P -> triple I fin any P -> triple I (try_finally body fin) Q P.
Proof.
    intros Hb Hf s Hs. destruct (Hb s Hs) as [H1 H2]. destruct (Hf _ H1) as [H3 H4].
    unfold try_finally. destruct (res (fin (st (body s)))) as [[]|e]; cbn [st res];
      now split.
Qed.

Lemma triple_for_each {A} (l : list A) (body : A -> M S unit) :
    (forall x, In x l -> triple I (body x) any P) -> triple I (for_each l body) any P.
Proof.
    induction l as [|x l IH]; intros Hb; cbn [for_each].
    - now apply triple_ret.
    - apply (triple_bind _ _ any); [apply Hb; now left |].
      intros _ _. apply IH. intros y Hy. apply Hb. now right.
Qed.
End Triples.

(** What [bind] returns comes from both of its parts. *)
Lemma bind_Ok_inv {S A B : Type} (m : M S A) (k : A -> M S B) (s : S) (b : B) :
  res (bind m k s) = Ok b -> exists a, res (m s) = Ok a /\ res (k a (st (m s))) = Ok b.
Proof.
  rewrite res_bind. destruct (res (m s)) as [a|e]; [| discriminate]. intros H. now exists a.
Qed.

(** Descends through the structure of a computation, leaving the calls
    it does not know. *)
Ltac steps_descend :=
  repeat first
    [ solve [apply steps_ret; typeclasses eauto]
    | solve [apply steps_raise; typeclasses eauto]
    | solve [apply steps_print; typeclasses eauto]
    | solve [apply steps_get; typeclasses eauto]
    | solve [apply steps_may_raise; typeclasses eauto]
    | apply steps_bind; [typeclasses eauto | | intros ?]
    | apply steps_try_finally; [typeclasses eauto | |]
    | apply steps_for_each; [typeclasses eauto | intros ?]
    | match goal with
      | |- steps _ (let _ := _ in _) => cbv zeta
      | |- steps _ (if ?b then _ else _) => destruct b
      | |- steps _ (match ?x with _ => _ end) => destruct x
      end ].

End MonadFacts.

(** ** The dataset collector *)

Module CollectorFacts.
Import Py PyFacts MonadFacts Collector.
Local Open Scope py_scope.
#[local] Arguments String.append !s1 s2 : simpl nomatch.
#[local] Arguments Ascii.eqb : simpl never.
#[local] Arguments str_nat : simpl never.

(** *** The capture loop *)

Lemma capture_loop_spec (l : list shot) :
  forall filenames count s,
  exists fs' c' s' o',
    capture_loop l filenames count s = mkOutcome (Ok (fs', c', first_fault l)) s' o' /\
    buzzer_class s' = buzzer_class s /\ dirs s' = dirs s /\
    (exists calls, cam s' = cam s ++ calls /\ forallb is_capture calls = true) /\
    (first_fault l = None ->
       fs' = filenames ++ map capture_filename l /\ c' = (count + length l)%nat /\
       files s' = files_after l (files s)).
Proof.
  induction l as [|sh l IH]; intros filenames count s.
  - exists filenames, count, s, []. simpl. repeat split.
    + exists []. now rewrite app_nil_r.
    + now rewrite app_nil_r.
    + lia.
  - cbn [capture_loop first_fault].
    unfold picam2_capture_file, time_sleep.
    destruct (capture_fault sh) as [e|] eqn:Ec.
    + eexists _, _, _, _. cbn. split; [reflexivity |]. repeat split.
      * exists [CamCapture ("capture_" +:+ strftime_stamp (now sh) +:+ ".jpg")]. now split.
      * discriminate.
      * discriminate.
      * discriminate.
    + destruct (sleep_fault sh) as [e|] eqn:Es.
      * eexists _, _, _, _. cbn. split; [reflexivity |]. repeat split.
        -- exists [CamCapture ("capture_" +:+ strftime_stamp (now sh) +:+ ".jpg")]. now split.
        -- discriminate.
        -- discriminate.
        -- discriminate.
      * cbn.
        match goal with
        | |- context [capture_loop l ?f ?c ?s1] =>
            destruct (IH f c s1) as (fs' & c' & s' & o' & E & Hb & Hd & (calls & Hc & Hcap) & Hok)
        end.
        rewrite E. cbn.
        eexists _, _, _, _. split; [reflexivity |]. repeat split.
        -- exact Hb.
        -- exact Hd.
        -- exists (CamCapture (capture_filename sh) :: calls). split.
           ++ rewrite Hc. cbn. now rewrite <- app_assoc.
           ++ exact Hcap.
        -- destruct (Hok H) as (-> & _ & _). unfold capture_filename.
           now rewrite <- app_assoc.
        -- destruct (Hok H) as (_ & -> & _). cbn. lia.
        -- destruct (Hok H) as (_ & _ & ->). reflexivity.
Qed.


Lemma stop_calls_app (l1 l2 : list cam_call) :
  stop_calls (l1 ++ l2) = (stop_calls l1 + stop_calls l2)%nat.
Proof. unfold stop_calls. now rewrite List.filter_app, length_app. Qed.

Lemma stop_calls_captures (calls : list cam_call) :
  forallb is_capture calls = true -> stop_calls calls = 0%nat.
Proof.
  induction calls as [|c calls IH]; [reflexivity |]. cbn [forallb].
  intros H. apply andb_true_iff in H as [Hc H].
  destruct c; try discriminate. exact (IH H).
Qed.

(** What [take_photos_continuous] does once the camera has started. *)
Lemma take_photos_continuous_spec (cls_name flag : string) (b : burst) (s : state) :
  burst_begins b ->
  exists calls s' o',
    take_photos_continuous cls_name flag b s =
      mkOutcome
        (match stop_fault b with
         | Some e => Raise e
         | None =>
             match first_fault (shots b) with
             | Some e => Raise e
             | None => Ok (map capture_filename (shots b))
             end
         end) s' o' /\
    cam s' = cam s ++ CamStart :: calls ++ [CamStop] /\
    forallb is_capture calls = true /\
    buzzer_class s' = buzzer_class s /\ dirs s' = dirs s /\
    (first_fault (shots b) = None -> files s' = files_after (shots b) (files s)).
Proof.
  intros (H1 & H2 & H3).
  unfold take_photos_continuous, time_sleep, picam2_start, picam2_stop.
  rewrite H1, H2, H3. cbn.
  destruct (capture_loop_spec (shots b) [] 0%nat (log_cam CamStart s))
    as (fs' & c' & s' & o' & E & Hb & Hd & (calls & Hc & Hcap) & Hok).
  rewrite (bind_Ok _ _ _ _ _ _ E). cbn.
  destruct (stop_fault b) as [e|] eqn:Es; cbn.
  - eexists calls, _, _. split; [reflexivity |]. cbn.
    rewrite Hc. cbn. rewrite <- !app_assoc. repeat split; auto.
    intros H. now destruct (Hok H) as (_ & _ & ->).
  - destruct (first_fault (shots b)) as [e|] eqn:Ef; cbn.
    + eexists calls, _, _. split; [reflexivity |]. cbn.
      rewrite Hc. cbn. rewrite <- !app_assoc. repeat split; auto. discriminate.
    + destruct (Hok eq_refl) as (-> & -> & Hf).
      eexists calls, _, _. split; [reflexivity |]. cbn.
      rewrite Hc. cbn. rewrite <- !app_assoc. repeat split; auto.
Qed.






(** *** What the operations leave alone *)

#[local] Instance same_flag_preorder : PreOrder same_flag.
Proof.
  split.
  - intros s. reflexivity.
  - intros s1 s2 s3 H1 H2. unfold same_flag in *. congruence.
Qed.

#[local] Instance dirs_grow_preorder : PreOrder dirs_grow.
Proof.
  split.
  - intros s p H. exact H.
  - intros s1 s2 s3 H1 H2 p H. auto.
Qed.

Lemma mem_add (p q : string) (l : list string) :
  mem p (add q l) = String.eqb p q || mem p l.
Proof.
  unfold add. destruct (mem q l) eqn:E.
  - destruct (String.eqb_spec p q) as [->|]; [now rewrite E | reflexivity].
  - unfold mem. rewrite existsb_app. cbn. rewrite orb_false_r. apply orb_comm.
Qed.


Section Frames.
  (** Both relations are kept by every function of the script; the flag
      slot is written by [flag_class] alone. *)
Context (R : relation state) `{!PreOrder R}.
Hypothesis R_files : forall f s, R s (set_files f s).
Hypothesis R_dirs : forall p s, R s (set_dirs (add p (dirs s)) s).
Hypothesis R_cam : forall c s, R s (log_cam c s).

Ltac steps_close :=
    try (apply steps_modify; intros ?;
         first [apply R_dirs | apply R_files | apply R_cam]).

Lemma steps_os_mkdir (p : string) : steps R (os_mkdir p).
Proof. unfold os_mkdir. steps_descend; steps_close. Qed.

Lemma steps_makedirs_rec (fuel : nat) (name : string) : steps R (makedirs_rec fuel name).
Proof.
    revert name. induction fuel as [|fuel IH]; intros name; cbn [makedirs_rec];
      destruct (path_split name) as [head tail];
      destruct (if String.eqb tail "" then path_split head else (head, tail)) as [h t].
    - steps_descend; steps_close.
    - steps_descend; steps_close.
      apply steps_try_except; [typeclasses eauto | apply IH |].
      intros e h0 He. destruct e; inversion He; subst. apply steps_ret; typeclasses eauto.
Qed.

Lemma steps_os_rename (src dst : string) : steps R (os_rename src dst).
Proof. unfold os_rename. steps_descend; steps_close. Qed.


Lemma steps_os_listdir (d : string) : steps R (os_listdir d).
Proof. unfold os_listdir. steps_descend. Qed.

Lemma steps_capture_loop (l : list shot) (filenames : list string) (count : nat) :
    steps R (capture_loop l filenames count).
Proof.
    revert filenames count. induction l as [|sh l IH]; intros filenames count s.
    - reflexivity.
    - cbn [capture_loop]. unfold picam2_capture_file, time_sleep.
      destruct (capture_fault sh); cbn; [apply R_cam |].
      destruct (sleep_fault sh); cbn.
      + etransitivity; [apply R_cam | apply R_files].
      + etransitivity; [apply R_cam |]. etransitivity; [apply R_files |]. apply IH.
Qed.


Lemma steps_capture_images (cls_name : string) (b : burst) :
    steps R (capture_images cls_name b).
Proof.
    unfold capture_images, os_makedirs.
    steps_descend; steps_close;
      first [apply steps_makedirs_rec | apply steps_capture_loop].
Qed.

Lemma steps_preview_camera (p : preview) : steps R (preview_camera p).
Proof. unfold preview_camera. steps_descend; steps_close. Qed.

Lemma steps_census_loop (folders : list string) (total : nat) :
    steps R (census_loop folders total).
Proof.
    revert total. induction folders as [|f l IH]; intros total; cbn [census_loop].
    - apply steps_ret; typeclasses eauto.
    - steps_descend; steps_close. apply IH.
Qed.

Lemma steps_list_captured_data : steps R list_captured_data.
Proof.
    unfold list_captured_data.
    steps_descend; steps_close; apply steps_census_loop.
Qed.

Lemma steps_view_buzzer_class : steps R view_buzzer_class.
Proof. unfold view_buzzer_class. steps_descend. Qed.

Lemma steps_show_menu : steps R show_menu.
Proof. unfold show_menu. steps_descend. Qed.

Lemma steps_ensure_data_dir : steps R ensure_data_dir.
Proof. unfold ensure_data_dir, os_makedirs. steps_descend; steps_close. Qed.
End Frames.

(** The relations every operation but [flag_class] keeps, and those the
    whole menu loop keeps. *)
Section MenuFrames.
Context (R : relation state) `{!PreOrder R}.
Hypothesis R_files : forall f s, R s (set_files f s).
Hypothesis R_dirs : forall p s, R s (set_dirs (add p (dirs s)) s).
Hypothesis R_cam : forall c s, R s (log_cam c s).
Hypothesis R_flag : forall c s, c <> "" -> R s (set_buzzer_class (Some c) s).

Lemma steps_flag_class (cls_name : string) : steps R (flag_class cls_name).
Proof.
    unfold flag_class. destruct (String.eqb_spec cls_name "") as [->|Hne].
    - apply steps_print; typeclasses eauto.
    - steps_descend. apply steps_modify. intros s. now apply R_flag.
Qed.

Lemma steps_main_loop (stdin : list stdin_event) :
    forall bursts previews, steps R (main_loop stdin bursts previews).
Proof.
    assert (H : forall n stdin, (length stdin <= n)%nat ->
                forall bursts previews, steps R (main_loop stdin bursts previews)).
    { clear stdin. induction n as [|n IH]; intros stdin Hlen bursts previews.
      - destruct stdin; [| cbn in Hlen; lia]. cbn [main_loop]. steps_descend.
      - destruct stdin as [|ev rest]; cbn [main_loop]; [steps_descend |].
        cbn [length] in Hlen.
        assert (Hrest : forall b p, steps R (main_loop rest b p))
          by (intros; apply IH; lia).
        assert (Hrest2 : forall ev2 rest2, rest = ev2 :: rest2 ->
                  forall b p, steps R (main_loop rest2 b p)).
        { intros ev2 rest2 -> b p. apply IH. cbn [length] in Hlen. lia. }
        destruct ev as [l|]; [| steps_descend].
        apply steps_bind; [typeclasses eauto | apply steps_show_menu; assumption |].
        intros _.
        apply steps_bind; [typeclasses eauto | apply steps_print; typeclasses eauto |].
        intros _.
        destruct (String.eqb (strip l) "1").
        { apply steps_bind; [typeclasses eauto | apply steps_print; typeclasses eauto |].
          intros _. destruct rest as [|[l2|] rest2]; try solve [steps_descend].
          destruct (negb (String.eqb (strip l2) "")).
          - apply steps_bind; [typeclasses eauto | now apply steps_capture_images |].
            intros _. now apply (Hrest2 _ _ eq_refl).
          - apply steps_bind; [typeclasses eauto | apply steps_print; typeclasses eauto |].
            intros _. now apply (Hrest2 _ _ eq_refl). }
        destruct (String.eqb (strip l) "2").
        { apply steps_bind; [typeclasses eauto | apply steps_print; typeclasses eauto |].
          intros _. destruct rest as [|[l2|] rest2]; try solve [steps_descend].
          apply steps_bind; [typeclasses eauto | apply steps_flag_class |].
          intros _. now apply (Hrest2 _ _ eq_refl). }
        destruct (String.eqb (strip l) "3").
        { apply steps_bind; [typeclasses eauto | now apply steps_view_buzzer_class |].
          intros _. apply Hrest. }
        destruct (String.eqb (strip l) "4").
        { apply steps_bind; [typeclasses eauto | now apply steps_list_captured_data |].
          intros _. apply Hrest. }
        destruct (String.eqb (strip l) "5").
        { apply steps_bind; [typeclasses eauto | now apply steps_preview_camera |].
          intros _. apply Hrest. }
        destruct (String.eqb (strip l) "6").
        { apply steps_print; typeclasses eauto. }
        apply steps_bind; [typeclasses eauto | apply steps_print; typeclasses eauto |].
        intros _. apply Hrest. }
    intros. now apply (H (length stdin)).
Qed.

Lemma steps_main (stdin : list stdin_event) (bursts : list burst) (previews : list preview) :
    steps R (main stdin bursts previews).
Proof.
    unfold main.
    apply steps_bind; [typeclasses eauto | now apply steps_ensure_data_dir |]. intros _.
    apply steps_bind; [typeclasses eauto | apply steps_print; typeclasses eauto |]. intros _.
    apply steps_bind; [typeclasses eauto | apply steps_print; typeclasses eauto |]. intros _.
    apply steps_main_loop.
Qed.

Lemma steps_guarded_block (stdin : list stdin_event) (bursts : list burst)
      (previews : list preview) (f : option exn) :
    steps R (guarded_block stdin bursts previews f).
Proof.
    unfold guarded_block.
    apply steps_try_finally; [typeclasses eauto | |].
    - apply steps_try_except; [typeclasses eauto | apply steps_main |].
      intros e h He.
      destruct e; cbn in He; inversion He; subst; apply steps_print; typeclasses eauto.
    - apply steps_try_except; [typeclasses eauto | |].
      + unfold picam2_stop. steps_descend. apply steps_modify. intros s. apply R_cam.
      + intros e h He. inversion He; subst. apply steps_ret; typeclasses eauto.
Qed.
End MenuFrames.

Lemma same_flag_ok (s s' : state) : same_flag s s' -> flag_state_ok s -> flag_state_ok s'.
Proof. unfold same_flag, flag_state_ok. now intros ->. Qed.

#[local] Instance ok_kept_preorder : PreOrder ok_kept.
Proof.
  split.
  - intros s H. exact H.
  - intros s1 s2 s3 H1 H2 H. auto.
Qed.

Lemma ok_kept_files f s : ok_kept s (set_files f s).
Proof. intros H. exact H. Qed.
Lemma ok_kept_dirs p s : ok_kept s (set_dirs (add p (dirs s)) s).
Proof. intros H. exact H. Qed.
Lemma ok_kept_cam c s : ok_kept s (log_cam c s).
Proof. intros H. exact H. Qed.
Lemma ok_kept_flag c s : c <> "" -> ok_kept s (set_buzzer_class (Some c) s).
Proof. intros Hc _. exact Hc. Qed.

Lemma same_flag_files f s : same_flag s (set_files f s).
Proof. reflexivity. Qed.
Lemma same_flag_dirs p s : same_flag s (set_dirs (add p (dirs s)) s).
Proof. reflexivity. Qed.
Lemma same_flag_cam c s : same_flag s (log_cam c s).
Proof. reflexivity. Qed.


(** *** The flag slot *)

Lemma flag_class_nonempty (c : string) (s : state) :
  c <> "" ->
  flag_class c s =
    mkOutcome (Ok tt) (set_buzzer_class (Some c) s)
      ["⚠  Class '" +:+ c +:+ "' flagged to trigger buzzer during live inference." +:+ nl].
Proof.
  intros Hc. unfold flag_class.
  destruct (String.eqb_spec c "") as [->|_]; [congruence | reflexivity].
Qed.

(** C4. Flagging a non-empty class [c] twice in a row leaves the flag
    slot holding [c] and the program in the very state one call leaves:
    the second call prints the message the first printed, and whatever
    runs next behaves the same.  Flagging [a] and then [b] leaves [b]
    flagged and nothing else; [a], when it differs from [b], is no longer
    flagged. *)
Theorem flag_class_idempotent_and_replacing (a b c : string) (s : state) :
  c <> "" -> a <> "" -> b <> "" ->
  let once := flag_class c s in
  let twice := (flag_class c ;; flag_class c)%py s in
  let ab := (flag_class a ;; flag_class b)%py s in
  (res twice = Ok tt /\ flagged (st twice) c /\ st twice = st once /\
   out (flag_class c (st once)) = out once /\
   (forall (X : Type) (k : M X), k (st twice) = k (st once))) /\
  (res ab = Ok tt /\ (forall x, flagged (st ab) x <-> x = b) /\
   (a <> b -> ~ flagged (st ab) a)).
Proof.
  intros Hc Ha Hb once twice ab. subst once twice ab.
  unfold bind. rewrite !(flag_class_nonempty c), !(flag_class_nonempty a) by assumption.
  cbn [res st out]. rewrite ?(flag_class_nonempty c), ?(flag_class_nonempty b) by assumption.
  cbn [res st out]. unfold flagged, set_buzzer_class. cbn [buzzer_class dirs files cam].
  repeat split.
  - congruence.
  - now intros ->.
  - intros Hne H. apply Hne. congruence.
Qed.

Lemma flag_class_idempotent_and_replacing_witness :
  let s := initial_state [] [] in
  "wire" <> "" /\ "pipe" <> "" /\
  st ((flag_class "wire" ;; flag_class "wire")%py s) = st (flag_class "wire" s) /\
  flagged (st ((flag_class "wire" ;; flag_class "pipe")%py s)) "pipe" /\
  ~ flagged (st ((flag_class "wire" ;; flag_class "pipe")%py s)) "wire".
Proof.
  intros s.
  assert (Hw : "wire" <> "") by discriminate.
  assert (Hp : "pipe" <> "") by discriminate.
  pose proof (flag_class_idempotent_and_replacing "wire" "pipe" "wire" s Hw Hw Hp)
    as ((_ & _ & H3 & _) & (_ & H6 & H7)).
  split; [exact Hw |]. split; [exact Hp |]. split; [exact H3 |].
  split; [now apply H6 | apply H7; discriminate].
Defined.

(** C8. The flag slot is empty or holds one non-empty class name: it is
    empty when a run starts, each operation of the collector (capture,
    flag, inspect, census, preview), the menu loop and the guarded block
    around it lead from a state with this property to a state with it,
    every operation but flagging leaves the slot as it was, and flagging
    the empty string changes nothing at all. *)
Theorem flag_state_invariant (s : state) :
  flag_state_ok s ->
  (forall dd df, buzzer_class (initial_state dd df) = None /\
                 flag_state_ok (initial_state dd df)) /\
  (forall cls b, buzzer_class (st (capture_images cls b s)) = buzzer_class s /\
                 flag_state_ok (st (capture_images cls b s))) /\
  (forall cls, flag_state_ok (st (flag_class cls s))) /\
  st (flag_class "" s) = s /\
  (buzzer_class (st (view_buzzer_class s)) = buzzer_class s /\
   flag_state_ok (st (view_buzzer_class s))) /\
  (buzzer_class (st (list_captured_data s)) = buzzer_class s /\
   flag_state_ok (st (list_captured_data s))) /\
  (forall p, buzzer_class (st (preview_camera p s)) = buzzer_class s /\
             flag_state_ok (st (preview_camera p s))) /\
  (forall stdin bursts previews,
     flag_state_ok (st (main_loop stdin bursts previews s))) /\
  (forall stdin bursts previews f,
     flag_state_ok (st (guarded_block stdin bursts previews f s))).
Proof.
  intros Hok.
  assert (Hsame : forall s', same_flag s s' ->
            buzzer_class s' = buzzer_class s /\ flag_state_ok s').
  { intros s' H. split; [exact H | now apply (same_flag_ok s)]. }
  split; [intros dd df; now split |].
  split.
  { intros cls b. apply Hsame.
    apply steps_capture_images;
      first [typeclasses eauto | apply same_flag_files | apply same_flag_dirs
            | apply same_flag_cam]. }
  split; [intros cls; apply (steps_flag_class ok_kept ok_kept_flag cls s Hok) |].
  split; [reflexivity |].
  split; [apply Hsame; apply steps_view_buzzer_class; typeclasses eauto |].
  split; [apply Hsame; apply steps_list_captured_data; typeclasses eauto |].
  split.
  { intros p. apply Hsame.
    apply steps_preview_camera; first [typeclasses eauto | apply same_flag_cam]. }
  split.
  - intros stdin bursts previews.
    apply (steps_main_loop ok_kept ok_kept_files ok_kept_dirs ok_kept_cam ok_kept_flag
             stdin bursts previews s Hok).
  - intros stdin bursts previews f.
    apply (steps_guarded_block ok_kept ok_kept_files ok_kept_dirs ok_kept_cam ok_kept_flag
             stdin bursts previews f s Hok).
Qed.

Lemma flag_state_invariant_witness :
  let s := set_buzzer_class (Some "wire") (initial_state [] []) in
  flag_state_ok s /\
  flag_state_ok (st (flag_class "pipe" s)) /\
  flag_state_ok (st (main_loop [Line "2"; Line ""; Line "3"; Line "6"] [] [] s)).
Proof.
  intros s.
  assert (Hok : flag_state_ok s) by (cbn; discriminate).
  pose proof (flag_state_invariant s Hok) as (_ & _ & H3 & _ & _ & _ & _ & H8 & _).
  split; [exact Hok |]. split; [apply H3 | apply H8].
Defined.

(** *** The module as a script *)

(** The clean-up of the [finally] clause: [picam2.stop()] is called and
    no exception leaves it. *)
Lemma final_cleanup_spec (f : option exn) (s : state) :
  try_except (picam2_stop f) (fun _ => Some (ret tt)) s =
    mkOutcome (Ok tt) (log_cam CamStop s) [].
Proof. destruct f; reflexivity. Qed.

(** Under the guard, a run ends with status 0 and the camera stopped
    when [main] returns, is interrupted, or raises an exception of a
    class derived from [Exception]. *)
Lemma guarded_block_exit_status (stdin : list stdin_event) (bursts : list burst)
    (previews : list preview) (f : option exn) (s : state) :
  (forall e, res (main stdin bursts previews s) = Raise e ->
             e = KeyboardInterrupt \/ is_Exception e = true) ->
  let p := run_script (guarded_block stdin bursts previews f) s in
  exit_status p = 0%Z /\ uncaught p = None /\ last (cam (final p)) = Some CamStop.
Proof.
  intros Hmain p. subst p.
  unfold run_script, guarded_block, try_finally.
  rewrite final_cleanup_spec. cbn [res st out].
  assert (Hlast : forall s1, last (cam (log_cam CamStop s1)) = Some CamStop).
  { intros s1. cbn. apply last_snoc. }
  unfold try_except.
  destruct (res (main stdin bursts previews s)) as [[]|e] eqn:Eo.
  - rewrite Eo. cbn. repeat split. apply Hlast.
  - destruct (Hmain e eq_refl) as [->|He].
    + cbn. repeat split. apply Hlast.
    + destruct e; try discriminate He; cbn; repeat split; apply Hlast.
Qed.

(** C9. As the script is written, the guard of line 222 reads the name
    [_name_], which nothing defines: every run of the collector ends
    there with an uncaught [NameError] and exit status 1, whatever the
    operator would have typed; [main] is never called, nothing is
    printed, the camera is not touched. *)
Theorem collector_ends_at_the_guard (dd df : list string) (stdin : list stdin_event)
    (bursts : list burst) (previews : list preview) (f : option exn) :
  test_py dd df stdin bursts previews f =
    mkProcess 1%Z (Some (NameError "_name_")) [] (initial_state dd df).
Proof. reflexivity. Qed.

(** *** Paths of a capture *)

Lemma capture_flag_cases (bc : option string) (cls : string) :
  (capture_flag bc cls = "dang" /\ bc = Some cls) \/
  (capture_flag bc cls = "ndan" /\ bc <> Some cls).
Proof.
  unfold capture_flag. destruct bc as [c|]; [| right; split; [reflexivity | discriminate]].
  destruct (String.eqb_spec c cls) as [->|Hne].
  - left. now split.
  - right. split; [reflexivity | congruence].
Qed.

Section ClassPaths.
Context (cls flag : string).
Hypothesis cls_plain : has_sep cls = false.
Hypothesis flag_cases : flag = "dang" \/ flag = "ndan".

Lemma flag_no_sep : has_sep flag = false.
Proof. destruct flag_cases as [->| ->]; reflexivity. Qed.


Lemma class_dir_name_no_sep : has_sep (cls +:+ "_" +:+ flag) = false.
Proof. now rewrite !has_sep_app, cls_plain, flag_no_sep. Qed.

Lemma DATA_DIR_ends_plain : ends_plain DATA_DIR.
Proof. exists "./training_dat", "a"%char. now split. Qed.


Lemma class_dir_join : path_join DATA_DIR (cls +:+ "_" +:+ flag) = spec_class_dir cls flag.
Proof.
  rewrite path_join_plain; [reflexivity | apply DATA_DIR_ends_plain | apply class_dir_name_no_sep].
Qed.

Lemma class_dir_parent : dirname (spec_class_dir cls flag) = DATA_DIR.
Proof.
  unfold spec_class_dir.
  apply dirname_plain; [apply DATA_DIR_ends_plain | apply class_dir_name_no_sep].
Qed.

Lemma class_dir_split : path_split (spec_class_dir cls flag) = (DATA_DIR, cls +:+ "_" +:+ flag).
Proof.
  unfold spec_class_dir.
  apply path_split_plain; [apply DATA_DIR_ends_plain | apply class_dir_name_no_sep].
Qed.




End ClassPaths.



(** *** The effect of a capture on the disk *)

Lemma os_mkdir_ok (p : string) (s : state) :
  path_exists s p = false -> parent_ok s p = true ->
  os_mkdir p s = mkOutcome (Ok tt) (set_dirs (add p (dirs s)) s) [].
Proof. intros H1 H2. unfold os_mkdir, bind, get. cbn. now rewrite H1, H2. Qed.





Lemma has_sep_neq (p q : string) : has_sep p = true -> has_sep q = false -> p <> q.
Proof. intros Hp Hq ->. congruence. Qed.

Section CaptureEffect.
Context (cls flag : string).
Hypothesis cls_plain : has_sep cls = false.
Hypothesis flag_cases : flag = "dang" \/ flag = "ndan".

Lemma makedirs_class_dir (s : state) :
  isdir s DATA_DIR = true -> path_exists s (spec_class_dir cls flag) = false ->
  os_makedirs (spec_class_dir cls flag) s =
    mkOutcome (Ok tt) (set_dirs (add (spec_class_dir cls flag) (dirs s)) s) [].
Proof.
  intros Hd Hne. unfold os_makedirs.
  assert (Hpar : parent_ok s (spec_class_dir cls flag) = true).
  { unfold parent_ok. rewrite (class_dir_parent cls flag cls_plain flag_cases), Hd.
    apply orb_true_r. }
  assert (Hex : path_exists s DATA_DIR = true).
  { unfold path_exists. now rewrite Hd. }
  assert (Hname : String.eqb (cls +:+ "_" +:+ flag) "" = false) by now destruct cls.
  destruct (String.length (spec_class_dir cls flag)); cbn [makedirs_rec];
    rewrite (class_dir_split cls flag cls_plain flag_cases), Hname;
    unfold bind at 1, get; cbn [res st out];
    rewrite Hex, andb_false_r;
    rewrite (os_mkdir_ok _ _ Hne Hpar); reflexivity.
Qed.


Lemma isdir_add (p q : string) (s : state) :
  isdir (set_dirs (add q (dirs s)) s) p = isdir s p || String.eqb p q.
Proof.
  unfold isdir, set_dirs. cbn [dirs]. rewrite mem_add.
  destruct (String.eqb p "."), (String.eqb p "/"), (String.eqb p q), (mem p (dirs s));
    reflexivity.
Qed.

Lemma isdir_same_dirs (s s' : state) (p : string) :
  dirs s' = dirs s -> isdir s' p = isdir s p.
Proof. unfold isdir. now intros ->. Qed.

Lemma isfile_same_files (s s' : state) (p : string) :
  files s' = files s -> isfile s' p = isfile s p.
Proof. unfold isfile. now intros ->. Qed.

Lemma append_neq (a b : string) : b <> "" -> a +:+ b <> a.
Proof.
  intros Hb. induction a as [|c a IH]; cbn.
  - exact Hb.
  - intros H. injection H as H. now apply IH.
Qed.

(** [os.makedirs] of the data directory, whatever the recursion bound. *)
Lemma makedirs_rec_data_dir (fuel : nat) (s : state) :
  path_exists s DATA_DIR = false ->
  makedirs_rec fuel DATA_DIR s =
    mkOutcome (Ok tt) (set_dirs (add DATA_DIR (dirs s)) s) [].
Proof.
  intros E.
  assert (Hpar : parent_ok s DATA_DIR = true) by reflexivity.
  destruct fuel; cbn [makedirs_rec];
    change (path_split DATA_DIR) with (".", "training_data"); cbv iota beta;
    change (String.eqb "training_data" "") with false; cbv iota;
    unfold bind at 1, get; cbn [res st out];
    change (path_exists s ".") with true; cbn [negb]; rewrite andb_false_r;
    apply (os_mkdir_ok _ _ E Hpar).
Qed.

Lemma class_dir_neq_data_dir : spec_class_dir cls flag <> DATA_DIR.
Proof. unfold spec_class_dir. apply append_neq. discriminate. Qed.

Lemma class_dir_name_not_dot : String.eqb (cls +:+ "_" +:+ flag) "." = false.
Proof.
  apply String.eqb_neq. intros H.
  assert (Hl : String.length (cls +:+ "_" +:+ flag) = 1%nat) by now rewrite H.
  rewrite !length_append in Hl. destruct flag_cases as [->| ->]; cbn [String.length] in Hl; lia.
Qed.

(** [os.makedirs] of the class directory when the data directory is not
    there either: both are made. *)
Lemma makedirs_class_dir_fresh (s : state) :
  path_exists s DATA_DIR = false -> path_exists s (spec_class_dir cls flag) = false ->
  os_makedirs (spec_class_dir cls flag) s =
    mkOutcome (Ok tt)
      (set_dirs (add (spec_class_dir cls flag) (add DATA_DIR (dirs s))) s) [].
Proof.
  intros Hd Hne. unfold os_makedirs.
  assert (Hname : String.eqb (cls +:+ "_" +:+ flag) "" = false) by now destruct cls.
  assert (Hlen : exists n, String.length (spec_class_dir cls flag) = S n).
  { unfold spec_class_dir. rewrite length_append. cbn [String.length DATA_DIR]. eauto. }
  destruct Hlen as [n ->]. cbn [makedirs_rec].
  rewrite (class_dir_split cls flag cls_plain flag_cases), Hname.
  unfold bind at 1, get. cbn [res st out].
  rewrite Hd. change (String.eqb DATA_DIR "") with false. cbn [negb andb].
  rewrite Hname. cbn [negb andb].
  rewrite (bind_Ok _ _ _ _ _ _
             (try_except_Ok _ _ _ _ _ _ (makedirs_rec_data_dir n s Hd))).
  rewrite class_dir_name_not_dot.
  set (s1 := set_dirs (add DATA_DIR (dirs s)) s).
  assert (Hne1 : path_exists s1 (spec_class_dir cls flag) = false).
  { unfold path_exists in *. subst s1. rewrite isdir_add.
    change (isfile (set_dirs (add DATA_DIR (dirs s)) s) (spec_class_dir cls flag))
      with (isfile s (spec_class_dir cls flag)).
    apply orb_false_iff in Hne as [H1 H2]. rewrite H1, H2.
    destruct (String.eqb_spec (spec_class_dir cls flag) DATA_DIR) as [E|_]; [| reflexivity].
    now apply class_dir_neq_data_dir in E. }
  assert (Hpar1 : parent_ok s1 (spec_class_dir cls flag) = true).
  { unfold parent_ok. rewrite (class_dir_parent cls flag cls_plain flag_cases).
    subst s1. rewrite isdir_add, String.eqb_refl. now rewrite !orb_true_r. }
  rewrite (os_mkdir_ok _ _ Hne1 Hpar1). reflexivity.
Qed.

(** Lines 95-98 of [capture_images]: the class directory is there
    afterwards, and nothing else has changed but the list of
    directories, which has gained the class directory and, where it was
    missing, the data directory. *)
Lemma ensure_class_dir (s : state) :
  isfile s DATA_DIR = false -> isfile s (spec_class_dir cls flag) = false ->
  exists s1 o1,
    (if negb (path_exists s (spec_class_dir cls flag)) then
       os_makedirs (spec_class_dir cls flag) ;;
       print ("✓ Created folder: " +:+ spec_class_dir cls flag)
     else ret tt)%py s = mkOutcome (Ok tt) s1 o1 /\
    isdir s1 (spec_class_dir cls flag) = true /\
    buzzer_class s1 = buzzer_class s /\ files s1 = files s /\ cam s1 = cam s /\
    (forall p, isdir s p = true -> isdir s1 p = true) /\
    (forall p, isdir s1 p = true ->
       isdir s p = true \/ p = spec_class_dir cls flag \/ p = DATA_DIR) /\
    (path_exists s (spec_class_dir cls flag) = false -> isdir s1 DATA_DIR = true).
Proof.
  intros Hfd Hf.
  destruct (path_exists s (spec_class_dir cls flag)) eqn:Hex; cbn [negb].
  - assert (Hdir : isdir s (spec_class_dir cls flag) = true).
    { unfold path_exists in Hex. rewrite Hf, orb_false_r in Hex. exact Hex. }
    exists s, []. repeat split; try assumption; auto. discriminate.
  - destruct (isdir s DATA_DIR) eqn:Hd.
    + exists (set_dirs (add (spec_class_dir cls flag) (dirs s)) s),
        ["✓ Created folder: " +:+ spec_class_dir cls flag]. split.
      * rewrite (bind_Ok _ _ _ _ _ _ (makedirs_class_dir s Hd Hex)). reflexivity.
      * repeat split.
        -- rewrite isdir_add, String.eqb_refl. apply orb_true_r.
        -- intros p Hp. rewrite isdir_add, Hp. reflexivity.
        -- intros p Hp. rewrite isdir_add in Hp. apply orb_true_iff in Hp as [Hp|Hp]; auto.
           apply String.eqb_eq in Hp. auto.
        -- intros _. rewrite isdir_add, Hd. reflexivity.
    + assert (Hexd : path_exists s DATA_DIR = false)
        by (unfold path_exists; now rewrite Hd, Hfd).
      exists (set_dirs (add (spec_class_dir cls flag) (add DATA_DIR (dirs s))) s),
        ["✓ Created folder: " +:+ spec_class_dir cls flag]. split.
      * rewrite (bind_Ok _ _ _ _ _ _ (makedirs_class_dir_fresh s Hexd Hex)). reflexivity.
      * assert (Hadd : forall p,
                  isdir (set_dirs (add (spec_class_dir cls flag) (add DATA_DIR (dirs s))) s) p =
                  isdir s p || String.eqb p DATA_DIR || String.eqb p (spec_class_dir cls flag)).
        { intros p.
          change (set_dirs (add (spec_class_dir cls flag) (add DATA_DIR (dirs s))) s)
            with (set_dirs (add (spec_class_dir cls flag)
                              (dirs (set_dirs (add DATA_DIR (dirs s)) s)))
                    (set_dirs (add DATA_DIR (dirs s)) s)).
          now rewrite !isdir_add. }
        repeat split.
        -- rewrite Hadd, String.eqb_refl. apply orb_true_r.
        -- intros p Hp. rewrite Hadd, Hp. reflexivity.
        -- intros p Hp. rewrite Hadd in Hp.
           apply orb_true_iff in Hp as [Hp|Hp]; [apply orb_true_iff in Hp as [Hp|Hp] |]; auto;
             apply String.eqb_eq in Hp; auto.
        -- intros _. rewrite Hadd, String.eqb_refl. now rewrite orb_true_r.
Qed.
End CaptureEffect.

Lemma capture_images_nonempty (cls : string) (b : burst) (s : state) :
  cls <> "" -> has_sep cls = false ->
  capture_images cls b s =
    ((if negb (path_exists s (spec_class_dir cls (capture_flag (buzzer_class s) cls))) then
        os_makedirs (spec_class_dir cls (capture_flag (buzzer_class s) cls)) ;;
        print ("✓ Created folder: " +:+ spec_class_dir cls (capture_flag (buzzer_class s) cls))
      else ret tt) ;;
     filenames <- take_photos_continuous cls (capture_flag (buzzer_class s) cls) b ;;
     for_each filenames (fun fname =>
       shutil_move fname
         (path_join (spec_class_dir cls (capture_flag (buzzer_class s) cls))
            (cls +:+ capture_flag (buzzer_class s) cls +:+ basename fname))) ;;
     print ("✓ Saved " +:+ str_nat (length filenames) +:+ " images to " +:+
            spec_class_dir cls (capture_flag (buzzer_class s) cls)) ;;
     print ("  Flag: " +:+
            (if String.eqb (capture_flag (buzzer_class s) cls) "dang"
             then "⚠  DANGEROUS (will trigger buzzer)"
             else "✓ SAFE (no buzzer)") +:+ nl))%py s.
Proof.
  intros Hne Hsep. unfold capture_images.
  destruct (String.eqb_spec cls "") as [->|_]; [congruence |].
  assert (Hflag : capture_flag (buzzer_class s) cls = "dang" \/
                  capture_flag (buzzer_class s) cls = "ndan").
  { destruct (capture_flag_cases (buzzer_class s) cls) as [[-> _]|[-> _]]; auto. }
  unfold bind at 1, get. cbn [res st out]. cbv zeta.
  rewrite (class_dir_join cls _ Hsep Hflag).
  destruct (bind _ _ s) as [r s' o]. reflexivity.
Qed.




(** *** The census *)

Lemma os_listdir_ok (d : string) (s : state) :
  isdir s d = true ->
  os_listdir d s =
    mkOutcome (Ok (remove_dups (omap (child_name d) (dirs s ++ files s)))) s [].
Proof. intros H. unfold os_listdir, bind, get. cbn. now rewrite H. Qed.

(** The loop prints one line for each folder, in order, and leaves the
    state as it found it. *)
Lemma census_loop_spec (folders : list string) :
  forall total s,
    (forall f, In f folders -> isdir s (path_join DATA_DIR f) = true) ->
    exists total' counts,
      length counts = length folders /\
      census_loop folders total s =
        mkOutcome (Ok total') s (map (fun fc => census_line (fst fc) (snd fc))
                                     (combine folders counts)) /\
      total' = (total + list_sum counts)%nat.
Proof.
  induction folders as [|f l IH]; intros total s Hdir.
  - exists total, []. cbn. repeat split. unfold list_sum; cbn; lia.
  - cbn [census_loop].
    rewrite (bind_Ok _ _ _ _ _ _ (os_listdir_ok _ s (Hdir f (or_introl eq_refl)))).
    set (n := length (List.filter _ _)).
    destruct (IH (total + n)%nat s) as (total' & counts & Hlen & E & Ht).
    { intros f' Hin. apply Hdir. now right. }
    exists total', (n :: counts). split; [cbn; now rewrite Hlen |]. split.
    + unfold bind, print. cbn [res st out]. rewrite E. reflexivity.
    + subst total'. unfold list_sum. cbn. lia.
Qed.

Lemma isdir_mem (s : state) (p : string) :
  isdir s p = true -> has_sep p = true -> String.length p <> 1%nat -> In p (dirs s).
Proof.
  unfold isdir. intros H Hsep Hlen.
  destruct (String.eqb_spec p ".") as [E1|_]; [subst p; discriminate Hsep |].
  destruct (String.eqb_spec p "/") as [E2|_]; [subst p; now cbn in Hlen |].
  cbn in H. unfold mem in H. apply existsb_exists in H as (q & Hin & Hq).
  apply String.eqb_eq in Hq. now subst.
Qed.

Lemma child_name_data_dir (name : string) :
  name <> "" -> has_sep name = false ->
  child_name DATA_DIR (DATA_DIR +:+ "/" +:+ name) = Some name.
Proof.
  intros Hne Hsep. unfold child_name.
  change (path_join DATA_DIR "") with (DATA_DIR +:+ "/").
  rewrite <- append_assoc, strip_prefix_app, Hsep, orb_false_r.
  destruct (String.eqb_spec name ""); [congruence | reflexivity].
Qed.

(** When the data directory holds a directory [name], the census prints
    a line for it. *)
Lemma list_captured_data_lists (name : string) (s : state) :
  name <> "" -> has_sep name = false ->
  isdir s DATA_DIR = true -> isdir s (DATA_DIR +:+ "/" +:+ name) = true ->
  exists n, In (census_line name n) (out (list_captured_data s)).
Proof.
  intros Hne Hsep Hdata Hdir.
  unfold list_captured_data.
  rewrite !out_bind. cbn [res st out print get].
  assert (Hex : path_exists s DATA_DIR = true) by (unfold path_exists; now rewrite Hdata).
  rewrite Hex. cbn [negb].
  rewrite (bind_Ok _ _ _ _ _ _ (os_listdir_ok _ s Hdata)). cbn [out app].
  set (entries := remove_dups _).
  set (folders := List.filter _ entries).
  assert (Hin : In name folders).
  { subst folders. apply filter_In. split.
    - subst entries. apply list_elem_of_In, elem_of_remove_dups, list_elem_of_omap.
      exists (DATA_DIR +:+ "/" +:+ name). split.
      + apply list_elem_of_In, in_or_app. left.
        apply (isdir_mem s); [exact Hdir | reflexivity |].
        cbn. lia.
      + now apply child_name_data_dir.
    - rewrite path_join_plain; [exact Hdir | apply DATA_DIR_ends_plain | exact Hsep]. }
  destruct folders as [|f0 fs] eqn:Ef; [destruct Hin |].
  rewrite <- Ef in *. clear Ef.
  destruct (census_loop_spec (sorted folders) 0%nat s) as (total & counts & Hlen & E & _).
  { intros f Hf. unfold sorted in Hf.
    apply list_elem_of_In in Hf. rewrite merge_sort_Permutation in Hf.
    apply list_elem_of_In in Hf. subst folders. apply filter_In in Hf as [_ Hf]. exact Hf. }
  rewrite (bind_Ok _ _ _ _ _ _ E). cbn [out].
  assert (Hs : In name (sorted folders)).
  { unfold sorted. apply list_elem_of_In. rewrite merge_sort_Permutation.
    now apply list_elem_of_In. }
  apply In_nth_error in Hs as (i & Hi).
  assert (Hlt : (i < length counts)%nat).
  { rewrite Hlen. apply nth_error_Some. congruence. }
  destruct (nth_error counts i) as [n|] eqn:Hn; [| apply nth_error_None in Hn; lia].
  exists n. do 3 apply in_cons. apply in_or_app. left.
  apply in_map_iff. exists (name, n). split; [reflexivity |].
  apply (nth_error_In _ i). clear -Hi Hn.
  revert i counts Hi Hn. induction (sorted folders) as [|x l IH]; intros [|i] [|c counts];
    cbn; intros Hi Hn; try discriminate.
  - congruence.
  - now apply IH.
Qed.










(** *** Further properties of the collector *)

Lemma makedirs_data_dir (s : state) :
  path_exists s DATA_DIR = false ->
  os_makedirs DATA_DIR s = mkOutcome (Ok tt) (set_dirs (dirs s ++ [DATA_DIR]) s) [].
Proof.
  intros E.
  assert (Hm : mem DATA_DIR (dirs s) = false).
  { unfold path_exists, isdir in E. apply orb_false_iff in E as [E _].
    apply orb_false_iff in E as [_ E]. exact E. }
  unfold os_makedirs. rewrite (makedirs_rec_data_dir _ s E). unfold add. now rewrite Hm.
Qed.

Lemma ensure_data_dir_eq (s : state) :
  ensure_data_dir s =
    if path_exists s DATA_DIR then mkOutcome (Ok tt) s []
    else mkOutcome (Ok tt) (set_dirs (dirs s ++ [DATA_DIR]) s)
           ["Created data directory: ./training_data"].
Proof.
  unfold ensure_data_dir. unfold bind at 1, get. cbn [res st out].
  destruct (path_exists s DATA_DIR) eqn:E; cbn [negb]; [reflexivity |].
  rewrite (bind_Ok _ _ _ _ _ _ (makedirs_data_dir s E)). reflexivity.
Qed.

Lemma path_exists_data_dir_made (s : state) :
  path_exists (set_dirs (dirs s ++ [DATA_DIR]) s) DATA_DIR = true.
Proof.
  unfold path_exists, isdir, mem. cbn [dirs set_dirs]. rewrite existsb_app. cbn [existsb].
  rewrite String.eqb_refl. cbn. now rewrite !orb_true_r.
Qed.

(** [ensure_data_dir] (lines 24-28) always returns, and the data
    directory path exists afterwards.  Where it existed already the call
    changes nothing and prints nothing; where it did not, the directory
    is made and one line is printed.  A second call is always silent. *)
Theorem ensure_data_dir_creates_once (s : state) :
  let o := ensure_data_dir s in
  res o = Ok tt /\
  path_exists (st o) DATA_DIR = true /\
  (path_exists s DATA_DIR = true -> st o = s /\ out o = []) /\
  (path_exists s DATA_DIR = false ->
     dirs (st o) = dirs s ++ [DATA_DIR] /\ files (st o) = files s /\
     buzzer_class (st o) = buzzer_class s /\ cam (st o) = cam s /\
     out o = ["Created data directory: ./training_data"]) /\
  ensure_data_dir (st o) = mkOutcome (Ok tt) (st o) [].
Proof.
  cbv zeta. rewrite (ensure_data_dir_eq s).
  destruct (path_exists s DATA_DIR) eqn:E; cbn [res st out].
  - rewrite ensure_data_dir_eq, E. repeat split; congruence.
  - rewrite ensure_data_dir_eq, path_exists_data_dir_made. repeat split; congruence.
Qed.

Lemma ensure_data_dir_creates_once_witness :
  let s := mkState (Some "wire") [] [] [] in
  let o := ensure_data_dir s in
  path_exists s DATA_DIR = false /\
  res o = Ok tt /\
  dirs (st o) = ["./training_data"] /\
  out o = ["Created data directory: ./training_data"] /\
  ensure_data_dir (st o) = mkOutcome (Ok tt) (st o) [].
Proof.
  intros s o.
  assert (H : path_exists s DATA_DIR = false) by reflexivity.
  destruct (ensure_data_dir_creates_once s) as (H1 & _ & _ & H4 & H5).
  destruct (H4 H) as (H6 & _ & _ & _ & H7).
  split; [exact H |]. split; [exact H1 |]. split; [exact H6 |]. split; [exact H7 | exact H5].
Defined.

(** The capture loop on any list of turns: what it returns, what it
    counts and what it leaves on disk are those of the turns that took
    their picture. *)
Lemma capture_loop_taken (l : list shot) :
  forall filenames count s,
    let o := capture_loop l filenames count s in
    res o = Ok (filenames ++ map capture_filename (taken l),
                (count + length (taken l))%nat, first_fault l) /\
    files (st o) = files_after (taken l) (files s).
Proof.
  induction l as [|sh l IH]; intros filenames count s.
  - cbn. rewrite app_nil_r, Nat.add_0_r. now split.
  - cbn [capture_loop first_fault taken].
    unfold picam2_capture_file, time_sleep.
    destruct (capture_fault sh) as [e|] eqn:Ec.
    + cbn. rewrite app_nil_r, Nat.add_0_r. now split.
    + destruct (sleep_fault sh) as [e|] eqn:Es.
      * cbn. rewrite Nat.add_1_r. now split.
      * cbn.
        match goal with
        | |- context [capture_loop l ?f ?c ?s1] =>
            destruct (IH f c s1) as [Hr Hf]; cbv zeta in Hr, Hf
        end.
        rewrite Hr, Hf. cbn. rewrite <- app_assoc, Nat.add_succ_r. now split.
Qed.

Lemma take_photos_continuous_taken
    (cls_name flag : string) (b : burst) (s : state) :
  burst_begins b -> stop_fault b = None ->
  let o := take_photos_continuous cls_name flag b s in
  files (st o) = files_after (taken (shots b)) (files s) /\
  last (out o) =
    Some ("✓ Capture complete! Total images: " +:+ str_nat (length (taken (shots b))) +:+ nl) /\
  (first_fault (shots b) = None -> taken (shots b) = shots b).
Proof.
  intros (H1 & H2 & H3) Hs o. subst o.
  unfold take_photos_continuous, time_sleep, picam2_start, picam2_stop.
  rewrite H1, H2, H3, Hs. mrun.
  destruct (capture_loop_taken (shots b) [] 0%nat (log_cam CamStart s)) as [Hr Hf].
  cbv zeta in Hr, Hf.
  destruct (capture_loop (shots b) [] 0 (log_cam CamStart s)) as [r s' o'] eqn:E.
  cbn [res st] in Hr, Hf. subst r.
  rewrite (bind_Ok _ _ _ _ _ _ E). cbn [res st out].
  mrun.
  split; [| split].
  - destruct (first_fault (shots b)); cbn; exact Hf.
  - rewrite Nat.add_0_l.
    destruct (first_fault (shots b)); cbn [raise ret out];
      rewrite !app_comm_cons; apply last_snoc.
  - clear. induction (shots b) as [|sh l IH]; [reflexivity |].
    cbn [first_fault taken]. destruct (capture_fault sh); [discriminate |].
    destruct (sleep_fault sh); [discriminate |]. intros H. now rewrite IH.
Qed.



(** [preview_camera] (lines 141-147) has no [finally]: it starts and
    stops the camera once each, in this order, only when nothing fails;
    when the two-second sleep is interrupted the exception leaves the
    function with the camera started and [picam2.stop()] not called. *)
Theorem preview_camera_stops_only_on_success (p : preview) (s : state) :
  let o := preview_camera p s in
  (preview_start_fault p = None -> preview_sleep_fault p = None ->
   preview_stop_fault p = None ->
     res o = Ok tt /\ cam (st o) = cam s ++ [CamStart; CamStop]) /\
  (forall e, preview_start_fault p = None -> preview_sleep_fault p = Some e ->
     res o = Raise e /\ cam (st o) = cam s ++ [CamStart]) /\
  buzzer_class (st o) = buzzer_class s /\ dirs (st o) = dirs s /\ files (st o) = files s.
Proof.
  cbv zeta. unfold preview_camera, picam2_start, picam2_stop, time_sleep.
  destruct (preview_start_fault p), (preview_sleep_fault p), (preview_stop_fault p); cbn;
    rewrite <- ?app_assoc; repeat split; try discriminate; try congruence.
Qed.

Lemma preview_camera_stops_only_on_success_witness :
  let p := mkPreview None (Some KeyboardInterrupt) None in
  let s := mkState None ["./training_data"] [] [] in
  let o := preview_camera p s in
  res o = Raise KeyboardInterrupt /\
  cam (st o) = [CamStart] /\
  res (preview_camera (mkPreview None None None) s) = Ok tt /\
  cam (st (preview_camera (mkPreview None None None) s)) = [CamStart; CamStop].
Proof.
  intros p s o.
  destruct (preview_camera_stops_only_on_success p s) as (_ & H2 & _).
  destruct (H2 KeyboardInterrupt eq_refl eq_refl) as [H3 H4].
  destruct (preview_camera_stops_only_on_success (mkPreview None None None) s) as (H5 & _).
  destruct (H5 eq_refl eq_refl eq_refl) as [H6 H7].
  split; [exact H3 |]. split; [exact H4 |]. split; [exact H6 | exact H7].
Defined.



(** *** Captures that fail *)

(** [capture_images] (lines 80-109) when the burst is cut short by an
    exception: the exception leaves [capture_images]; the class
    directory has been made before the burst and stays; the camera has
    been stopped; and the pictures taken before the fault are where the
    camera wrote them, in the working directory: none was moved. *)
Theorem failed_burst_leaves_pictures_unfiled (cls : string) (b : burst) (s : state) (e : exn) :
  cls <> "" -> has_sep cls = false ->
  isfile s DATA_DIR = false ->
  isfile s (spec_class_dir cls (capture_flag (buzzer_class s) cls)) = false ->
  burst_begins b -> stop_fault b = None -> first_fault (shots b) = Some e ->
  let flag := capture_flag (buzzer_class s) cls in
  let o := capture_images cls b s in
  res o = Raise e /\
  isdir (st o) (spec_class_dir cls flag) = true /\
  files (st o) = files_after (taken (shots b)) (files s) /\
  stop_calls (cam (st o)) = S (stop_calls (cam s)).
Proof.
  intros Hne Hsep Hdata Hfile Hbegin Hstop Hfault flag o. subst o.
  rewrite (capture_images_nonempty cls b s Hne Hsep). fold flag in Hfile |- *.
  assert (Hflag : flag = "dang" \/ flag = "ndan").
  { subst flag. destruct (capture_flag_cases (buzzer_class s) cls) as [[-> _]|[-> _]]; auto. }
  destruct (ensure_class_dir cls flag Hsep Hflag s Hdata Hfile)
    as (s1 & o1 & E1 & Hdir1 & Hb1 & Hf1 & Hc1 & _).
  rewrite (bind_Ok _ _ _ _ _ _ E1).
  destruct (take_photos_continuous_spec cls flag b s1 Hbegin)
    as (calls & s2 & o2 & E2 & Hcam & Hcap & Hb2 & Hd2 & _).
  rewrite Hstop, Hfault in E2.
  destruct (take_photos_continuous_taken cls flag b s1 Hbegin Hstop) as (Hfiles & _ & _).
  rewrite E2 in Hfiles. cbn [st] in Hfiles.
  rewrite (bind_Raise _ _ _ _ _ _ E2). cbn [res st out].
  split; [reflexivity |]. split; [| split].
  - rewrite (isdir_same_dirs s1 s2 _ Hd2). exact Hdir1.
  - now rewrite Hfiles, Hf1.
  - rewrite Hcam, Hc1.
    change (CamStart :: calls ++ [CamStop]) with ([CamStart] ++ calls ++ [CamStop]).
    rewrite !stop_calls_app, (stop_calls_captures _ Hcap). cbn. lia.
Qed.

Lemma failed_burst_leaves_pictures_unfiled_witness :
  let b := mkBurst None None None
             [ mkShot (mkDatetime 2024 5 17 9 30 0 125) None None;
               mkShot (mkDatetime 2024 5 17 9 30 0 640) (Some (RuntimeError "camera timeout")) None ]
             None in
  let s := mkState None ["./training_data"] [] [] in
  let o := capture_images "wire" b s in
  burst_begins b /\
  res o = Raise (RuntimeError "camera timeout") /\
  isdir (st o) "./training_data/wire_ndan" = true /\
  files (st o) = ["capture_20240517_093000_000125.jpg"].
Proof.
  intros b s o.
  assert (Hb : burst_begins b) by (repeat split).
  destruct (failed_burst_leaves_pictures_unfiled "wire" b s (RuntimeError "camera timeout")
              ltac:(discriminate) eq_refl eq_refl eq_refl Hb eq_refl eq_refl)
    as (H1 & H2 & H3 & _).
  split; [exact Hb |]. split; [exact H1 |]. split; [exact H2 | exact H3].
Defined.
End CollectorFacts.

(** ** The diagnostic runner *)

Module DiagnosticFacts.
Import Py PyFacts MonadFacts Diagnostic.
Local Open Scope py_scope.
#[local] Arguments String.append !s1 s2 : simpl nomatch.
#[local] Arguments Ascii.eqb : simpl never.

(** *** The checks, one by one *)

Lemma checks_started_app (l1 l2 : list string) :
  checks_started (l1 ++ l2) = checks_started l1 ++ checks_started l2.
Proof. unfold checks_started. apply List.filter_app. Qed.

Lemma status_line_no_header (status message : string) :
  is_test_header (status_line status message) = false.
Proof.
  unfold status_line, color_of, symbol_of.
  destruct (String.eqb status "pass"); [reflexivity |].
  destruct (String.eqb status "fail"); [reflexivity |].
  destruct (String.eqb status "warn"); [reflexivity |].
  destruct (String.eqb status "info"); reflexivity.
Qed.

Lemma label_map_line_no_header (e : env) (s : state) :
  is_test_header (label_map_line e s) = false.
Proof.
  unfold label_map_line. destruct (os_path_exists s label_map_file);
    apply status_line_no_header.
Qed.

Lemma test1_model_absent (e : env) (s : state) :
  disk s !! model_file = None ->
  test1 e s =
    mkOutcome (Raise (SystemExit 1)) s
      [ nl +:+ repeat_char "=" 60; "  TEST 1: Checking Required Files"; repeat_char "=" 60;
        status_line "fail" (model_file +:+ " NOT found - " +:+ "Trained model file");
        label_map_line e s;
        status_line "fail" "CRITICAL: Model file is required!";
        nl +:+ "To transfer your model to Raspberry Pi:";
        "  1. From another computer: scp object_identifier_model.h5 pi@raspberrypi.local:~/";
        "  2. Or use USB drive, email, cloud storage, etc." ].
Proof.
  intros H. unfold test1, print_header, files_to_check. cbn [check_files].
  unfold print_status, label_map_line, os_path_exists. mrun.
  unfold model_file in H. rewrite H. mrun. unfold label_map_file.
  destruct (disk s !! "class_indices.json") eqn:E; mrun;
    (rewrite lookup_insert_ne by discriminate); rewrite lookup_insert_eq; mrun; reflexivity.
Qed.

Lemma test1_model_present (e : env) (s : state) (content : string) :
  disk s !! model_file = Some content ->
  test1 e s =
    mkOutcome (Ok tt) s
      [ nl +:+ repeat_char "=" 60; "  TEST 1: Checking Required Files"; repeat_char "=" 60;
        status_line "pass"
          (model_file +:+ " found (" +:+ size_text e model_file +:+ " MB) - " +:+
           "Trained model file");
        label_map_line e s ].
Proof.
  intros H. unfold test1, print_header, files_to_check. cbn [check_files].
  unfold print_status, label_map_line, os_path_exists. mrun.
  unfold model_file in H. rewrite H. mrun. unfold label_map_file.
  destruct (disk s !! "class_indices.json") eqn:E; mrun;
    (rewrite lookup_insert_ne by discriminate); rewrite lookup_insert_eq; mrun; reflexivity.
Qed.

(** C6. When the model file is absent the run ends in TEST 1: the
    interpreter exits with status 1 through [sys.exit(1)], the console
    shows the header of TEST 1 and of no other check, and the state is
    the one the run found: no file written, no answer read, no call on
    the GPIO pins or on the camera. *)
Theorem model_file_absent_ends_run (e : env) (s : state) :
  disk s !! model_file = None ->
  let p := run e s in
  exit_status p = 1%Z /\
  uncaught p = Some (SystemExit 1) /\
  checks_started (console p) = ["  TEST 1: Checking Required Files"] /\
  last (console p) = Some "  2. Or use USB drive, email, cloud storage, etc." /\
  final p = s.
Proof.
  intros H p. subst p. unfold run, Load_Model_py.
  rewrite (bind_Raise _ _ _ _ _ _ (test1_model_absent e s H)). cbn [res st out].
  repeat split.
  unfold checks_started. cbn [console List.filter].
  rewrite !status_line_no_header, label_map_line_no_header. reflexivity.
Qed.

Lemma model_file_absent_ends_run_witness :
  let e := nominal_env in
  let s := mkState {[ "class_indices.json" := "{}" ]} [Line "y"] [] [] in
  disk s !! model_file = None /\
  exit_status (run e s) = 1%Z /\
  checks_started (console (run e s)) = ["  TEST 1: Checking Required Files"] /\
  final (run e s) = s.
Proof.
  intros e s.
  assert (H : disk s !! model_file = None) by reflexivity.
  destruct (model_file_absent_ends_run e s H) as (H1 & _ & H3 & _ & H5).
  repeat split; assumption.
Defined.
Lemma test2_all_importable (e : env) (s : state) :
  (forall m, In m (map fst dependencies) -> import_fault e m = None) ->
  test2 e s =
    mkOutcome (Ok tt) s
      ([ nl +:+ repeat_char "=" 60; "  TEST 2: Checking Python Dependencies";
         repeat_char "=" 60 ] ++
       map (fun md => status_line "pass" (fst md +:+ " - " +:+ snd md)) dependencies).
Proof.
  intros H. unfold test2, dependencies, check_dependencies, print_header, print_status.
  cbn [map fst snd] in H.
  rewrite !H by (cbn; tauto). reflexivity.
Qed.

Lemma test3_loads (e : env) (s : state) (input_shape output_shape : list (option Z))
    (num_classes : option Z) :
  load_model e = Ok (input_shape, output_shape) ->
  last output_shape = Some num_classes ->
  test3 e s =
    mkOutcome (Ok (input_shape, num_classes)) s
      [ nl +:+ repeat_char "=" 60; "  TEST 3: Loading Model"; repeat_char "=" 60;
        status_line "info" "Loading model (this may take 30-60 seconds)...";
        status_line "pass" "Model loaded successfully!";
        status_line "info" ("Input shape: " +:+ repr_shape input_shape);
        status_line "info" ("Output shape: " +:+ repr_shape output_shape);
        status_line "info" ("Number of classes: " +:+ repr_dim num_classes) ].
Proof.
  intros H1 H2. unfold test3, print_header. mrun.
  erewrite try_except_Ok; [reflexivity |].
  unfold print_status. mrun. rewrite H1. mrun. rewrite H2. mrun. reflexivity.
Qed.

(** TEST 4 on a label-map file that does not parse: the error is
    printed and [class_indices] is [None]. *)
Lemma test4_unparsable (e : env) (num_classes : option Z) (s : state) (text : string) :
  disk s !! label_map_file = Some text -> json_loads text = Invalid ->
  test4 e num_classes s =
    mkOutcome (Ok JNull) s
      [ nl +:+ repeat_char "=" 60; "  TEST 4: Class Indices"; repeat_char "=" 60;
        status_line "fail"
          ("Error reading class_indices.json: " +:+ decode_error_text e text) ].
Proof.
  intros H1 H2. unfold test4, print_header. mrun. rewrite H1.
  erewrite try_except_caught;
    [| unfold json_load; rewrite H2; mrun; reflexivity | reflexivity].
  unfold print_status. mrun. reflexivity.
Qed.

(** C3. A label-map file that does not parse is caught in TEST 4, which
    prints the error and leaves [class_indices] at [None]; line 134 then
    calls [.items()] on it.  The [AttributeError] is raised outside every
    [try]: the run ends there with a traceback and status 1, after the
    header of TEST 4 and before the buzzer, camera and inference checks
    and the summary. *)
Theorem unparsable_label_map_ends_run (e : env) (s : state) (content text : string)
    (input_shape output_shape : list (option Z)) (num_classes : option Z) :
  disk s !! model_file = Some content ->
  disk s !! label_map_file = Some text ->
  json_loads text = Invalid ->
  (forall m, In m (map fst dependencies) -> import_fault e m = None) ->
  load_model e = Ok (input_shape, output_shape) ->
  last output_shape = Some num_classes ->
  let p := run e s in
  exit_status p = 1%Z /\
  uncaught p = Some (AttributeError "'NoneType' object has no attribute 'items'") /\
  checks_started (console p) =
    [ "  TEST 1: Checking Required Files"; "  TEST 2: Checking Python Dependencies";
      "  TEST 3: Loading Model"; "  TEST 4: Class Indices" ] /\
  final p = s.
Proof.
  intros Hm Hl Hj Hi Hload Hlast p. subst p. unfold run, Load_Model_py.
  rewrite (bind_Ok _ _ _ _ _ _ (test1_model_present e s content Hm)).
  rewrite (bind_Ok _ _ _ _ _ _ (test2_all_importable e s Hi)).
  rewrite (bind_Ok _ _ _ _ _ _ (test3_loads e s _ _ _ Hload Hlast)).
  rewrite (bind_Ok _ _ _ _ _ _ (test4_unparsable e num_classes s text Hl Hj)).
  cbn [res st out build_index_to_class bind raise]. cbn [exit_status uncaught console final].
  repeat split.
  rewrite !checks_started_app. unfold checks_started, dependencies.
  cbn [List.filter map fst snd app].
  rewrite !status_line_no_header, label_map_line_no_header. reflexivity.
Qed.

Lemma unparsable_label_map_ends_run_witness :
  let e := nominal_env in
  let s := mkState (<[ "class_indices.json" := "{" ]> {[ "object_identifier_model.h5" := "" ]})
             [Line "n"] [] [] in
  json_loads "{" = Invalid /\
  exit_status (run e s) = 1%Z /\
  uncaught (run e s) = Some (AttributeError "'NoneType' object has no attribute 'items'") /\
  final (run e s) = s.
Proof.
  intros e s.
  assert (Hj : json_loads "{" = Invalid) by reflexivity.
  assert (Hm : disk s !! model_file = Some "") by reflexivity.
  assert (Hl : disk s !! label_map_file = Some "{") by reflexivity.
  assert (Hi : forall m, In m (map fst dependencies) -> import_fault e m = None)
    by (intros; reflexivity).
  destruct (unparsable_label_map_ends_run e s "" "{" _ _ (Some 2%Z) Hm Hl Hj Hi eq_refl eq_refl)
    as (H1 & H2 & _ & H4).
  repeat split; assumption.
Defined.
(** *** Numbers and string literals of the label-map file *)

Lemma nzhead_head (d : Decimal.uint) :
  match Decimal.nzhead d with Decimal.D0 _ => False | _ => True end.
Proof. induction d; cbn; auto. Qed.

(** The decimal digits of a positive number start with a digit other
    than zero. *)
Lemma pos_to_uint_head (p : positive) :
  match Pos.to_uint p with Decimal.Nil | Decimal.D0 _ => False | _ => True end.
Proof.
  pose proof (DecimalPos.Unsigned.to_of (Pos.to_uint p)) as H.
  rewrite DecimalPos.Unsigned.of_to in H.
  change (N.to_uint (N.pos p)) with (Pos.to_uint p) in H.
  pose proof (DecimalPos.Unsigned.to_uint_nonzero p) as Hnz.
  pose proof (nzhead_head (Pos.to_uint p)) as Hh.
  generalize dependent (Pos.to_uint p). intros d H Hnz Hh.
  unfold Decimal.unorm in H.
  destruct (Decimal.nzhead d) eqn:E; subst d; first [exact I | exact Hh | now apply Hnz].
Qed.

(** What [digit_of] answers is one of the ten digit constructors. *)
Lemma digit_of_Some (c : ascii) (f : Decimal.uint -> Decimal.uint) :
  digit_of c = Some f ->
  (nat_of_ascii c =? 45)%nat = false /\
  (forall u, f u <> Decimal.Nil) /\
  ((nat_of_ascii c =? 48)%nat = true -> f = Decimal.D0).
Proof.
  unfold digit_of. intros H. cbv zeta in H.
  repeat match type of H with
         | (if (?n =? ?k)%nat then _ else _) = _ =>
             let E := fresh "E" in
             destruct (Nat.eqb_spec n k) as [E|E];
             [rewrite ?E; inversion H; subst;
              split; [vm_compute; reflexivity |];
              split; [intros u Hu; discriminate Hu |];
              intros X; first [reflexivity | vm_compute in X; discriminate X] |]
         end.
  discriminate.
Qed.

Lemma digit_of_In (c : ascii) (f : Decimal.uint -> Decimal.uint) :
  digit_of c = Some f -> In c ["0"; "1"; "2"; "3"; "4"; "5"; "6"; "7"; "8"; "9"]%char.
Proof.
  unfold digit_of. intros H. cbv zeta in H.
  rewrite <- (ascii_nat_embedding c).
  repeat match type of H with
         | (if (?n =? ?k)%nat then _ else _) = _ =>
             let E := fresh "E" in
             destruct (Nat.eqb_spec n k) as [E|E];
             [rewrite E; cbn; tauto |]
         end.
  discriminate.
Qed.

(** A digit, or a minus sign before a digit, does not start one of the
    constants [NaN], [Infinity] and [-Infinity]. *)
Lemma no_constant_digit (c : ascii) (f : Decimal.uint -> Decimal.uint) (t : string) :
  digit_of c = Some f ->
  startswith (String c t) "NaN" || startswith (String c t) "Infinity" ||
    startswith (String c t) "-Infinity" = false.
Proof.
  intros H. apply digit_of_In in H. cbn [In] in H.
  repeat (destruct H as [<-|H]; [reflexivity |]). destruct H.
Qed.

Lemma no_constant_minus_digit (c : ascii) (f : Decimal.uint -> Decimal.uint) (t : string) :
  digit_of c = Some f ->
  startswith (String "-" (String c t)) "NaN" || startswith (String "-" (String c t)) "Infinity" ||
    startswith (String "-" (String c t)) "-Infinity" = false.
Proof.
  intros H. apply digit_of_In in H. cbn [In] in H.
  repeat (destruct H as [<-|H]; [reflexivity |]). destruct H.
Qed.

Lemma take_digits_cons (c : ascii) (f : Decimal.uint -> Decimal.uint) (tail : string) :
  digit_of c = Some f ->
  take_digits (String c tail) = (f (fst (take_digits tail)), snd (take_digits tail)).
Proof. intros H. cbn [take_digits]. rewrite H. now destruct (take_digits tail). Qed.

Lemma float_follows_ends (rest : string) : ends_number rest -> float_follows rest = false.
Proof. destruct rest; [reflexivity | now intros [_ H]]. Qed.

Lemma take_digits_render (d : Decimal.uint) (rest : string) :
  ends_number rest ->
  take_digits (NilEmpty.string_of_uint d +:+ rest) = (d, rest).
Proof.
  intros Hrest.
  induction d; cbn [NilEmpty.string_of_uint String.append];
    try (erewrite take_digits_cons by (vm_compute; reflexivity); now rewrite IHd).
  destruct rest as [|c r]; [reflexivity |].
  destruct Hrest as [Hc _]. cbn [take_digits]. now rewrite Hc.
Qed.

Lemma parse_number_digit (c : ascii) (f : Decimal.uint -> Decimal.uint) (tail : string) :
  digit_of c = Some f -> (nat_of_ascii c =? 48)%nat = false ->
  parse_number (String c tail) =
    if float_follows (snd (take_digits tail)) then Beyond
    else Parsed (Z.of_int (Decimal.Pos (f (fst (take_digits tail)))), snd (take_digits tail)).
Proof.
  intros H H0. destruct (digit_of_Some c f H) as (H45 & Hnil & _).
  unfold parse_number, parse_magnitude. rewrite (no_constant_digit c f tail H), H45, H0.
  rewrite (take_digits_cons c f tail H).
  specialize (Hnil (fst (take_digits tail))).
  destruct (f (fst (take_digits tail))); [congruence | reflexivity ..].
Qed.

Lemma parse_number_minus_digit (c : ascii) (f : Decimal.uint -> Decimal.uint) (tail : string) :
  digit_of c = Some f -> (nat_of_ascii c =? 48)%nat = false ->
  parse_number (String "-" (String c tail)) =
    if float_follows (snd (take_digits tail)) then Beyond
    else Parsed (Z.of_int (Decimal.Neg (f (fst (take_digits tail)))), snd (take_digits tail)).
Proof.
  intros H H0. destruct (digit_of_Some c f H) as (_ & Hnil & _).
  unfold parse_number, parse_magnitude. rewrite (no_constant_minus_digit c f tail H).
  change (nat_of_ascii "-" =? 45)%nat with true. cbv iota. rewrite H0.
  rewrite (take_digits_cons c f tail H).
  specialize (Hnil (fst (take_digits tail))).
  destruct (f (fst (take_digits tail))); [congruence | reflexivity ..].
Qed.

(** Reading back the decimal text of an integer gives the integer. *)
Lemma parse_number_str_int (z : Z) (rest : string) :
  ends_number rest -> parse_number (str_int z +:+ rest) = Parsed (z, rest).
Proof.
  intros Hrest. pose proof (float_follows_ends rest Hrest) as Hf.
  unfold str_int. rewrite <- (DecimalZ.of_to z) at 2.
  destruct z as [|p|p]; cbn [Z.to_int NilZero.string_of_int].
  - change (NilZero.string_of_uint Decimal.zero +:+ rest) with (String "0" rest).
    unfold parse_number, parse_magnitude.
    change (startswith (String "0" rest) "NaN" || startswith (String "0" rest) "Infinity" ||
              startswith (String "0" rest) "-Infinity") with false. cbv iota.
    change (nat_of_ascii "0" =? 45)%nat with false.
    change (nat_of_ascii "0" =? 48)%nat with true.
    cbv iota. now rewrite Hf.
  - pose proof (pos_to_uint_head p) as Hh.
    destruct (Pos.to_uint p) as [|d|d|d|d|d|d|d|d|d|d] eqn:E; try contradiction;
      cbn [NilZero.string_of_uint NilEmpty.string_of_uint String.append];
      (erewrite parse_number_digit by (vm_compute; reflexivity));
      rewrite (take_digits_render d rest Hrest); cbn [fst snd]; now rewrite Hf.
  - pose proof (pos_to_uint_head p) as Hh.
    destruct (Pos.to_uint p) as [|d|d|d|d|d|d|d|d|d|d] eqn:E; try contradiction;
      cbn [NilZero.string_of_uint NilEmpty.string_of_uint String.append];
      (erewrite parse_number_minus_digit by (vm_compute; reflexivity));
      rewrite (take_digits_render d rest Hrest); cbn [fst snd]; now rewrite Hf.
Qed.

(** *** The synthesized label map *)

Lemma str_int_inj (a b : Z) : str_int a = str_int b -> a = b.
Proof.
  intros H.
  assert (Hp : forall z, parse_number (str_int z +:+ "") = Parsed (z, "")).
  { intros z. now apply parse_number_str_int. }
  pose proof (Hp a) as Ha. rewrite H, Hp in Ha. congruence.
Qed.

Lemma dict_get_app_None {V : Type} (k : string) (d1 d2 : list (string * V)) :
  dict_get String.eqb k (d1 ++ d2) = None <->
  dict_get String.eqb k d1 = None /\ dict_get String.eqb k d2 = None.
Proof.
  induction d1 as [|[k' v'] d1 IH]; cbn.
  - tauto.
  - destruct (String.eqb k k'); [| exact IH]. split; [discriminate | now intros [? _]].
Qed.

Lemma dict_set_fresh {V : Type} (k : string) (v : V) (d : list (string * V)) :
  dict_get String.eqb k d = None -> dict_set String.eqb k v d = d ++ [(k, v)].
Proof.
  induction d as [|[k' v'] d IH]; cbn; [reflexivity |].
  destruct (String.eqb k k'); [discriminate |]. intros H. now rewrite IH.
Qed.

Lemma dict_get_None {V : Type} (k : string) (d : list (string * V)) :
  dict_get String.eqb k d = None <-> ~ In k (map fst d).
Proof.
  induction d as [|[k' v'] d IH]; cbn; [tauto |].
  destruct (String.eqb_spec k k') as [->|Hne].
  - split; [discriminate | intros H; exfalso; apply H; now left].
  - rewrite IH. split; [intros H [E|E]; [congruence | contradiction] | tauto].
Qed.

(** Inserting pairs whose keys are new and pairwise distinct appends
    them in order. *)
Lemma fold_dict_set_distinct {V : Type} (pairs acc : list (string * V)) :
  List.NoDup (map fst (acc ++ pairs)) ->
  fold_left (fun d kv => dict_set String.eqb (fst kv) (snd kv) d) pairs acc = acc ++ pairs.
Proof.
  revert acc. induction pairs as [|[k v] pairs IH]; intros acc Hnd; cbn.
  - now rewrite app_nil_r.
  - rewrite dict_set_fresh.
    + rewrite IH; rewrite <- app_assoc; [reflexivity | exact Hnd].
    + apply dict_get_None. rewrite map_app in Hnd. cbn in Hnd.
      apply List.NoDup_remove_2 in Hnd. intros Hin. apply Hnd.
      apply in_or_app. now left.
Qed.

Lemma dict_of_pairs_distinct {V : Type} (pairs : list (string * V)) :
  List.NoDup (map fst pairs) -> dict_of_pairs String.eqb pairs = pairs.
Proof. intros H. unfold dict_of_pairs. now rewrite fold_dict_set_distinct. Qed.

(** The names of the generic default of line 126 are pairwise distinct. *)
Lemma class_i_keys_distinct (n : nat) : List.NoDup (map fst (class_i_pairs n)).
Proof.
  unfold class_i_pairs. rewrite map_map. cbn [fst].
  apply Injective_map_NoDup; [| apply List.seq_NoDup].
  intros i j H. apply String.app_inj in H. apply str_int_inj in H. lia.
Qed.

Lemma synthesized_generic (n : nat) :
  n <> 2%nat -> synthesized_class_indices (Z.of_nat n) = class_i_pairs n.
Proof.
  intros Hn. unfold synthesized_class_indices.
  destruct (Z.eqb_spec (Z.of_nat n) 2) as [E|_]; [lia |].
  unfold py_range. rewrite Nat2Z.id, map_map.
  apply dict_of_pairs_distinct. apply class_i_keys_distinct.
Qed.

(** What the default map looks like, whatever the class count. *)
Lemma synthesized_class_indices_shape (n : nat) :
  let m := synthesized_class_indices (Z.of_nat n) in
  length m = n /\
  map snd m = map (fun i => JInt (Z.of_nat i)) (seq 0 n) /\
  List.NoDup (map fst m) /\
  (n = 2%nat -> m = [("dang", JInt 0); ("ndan", JInt 1)]) /\
  (n <> 2%nat -> map fst m = map (fun i => "class_" +:+ str_int (Z.of_nat i)) (seq 0 n)).
Proof.
  destruct (Nat.eq_dec n 2) as [->|Hn].
  - cbn. repeat split; try congruence.
    repeat constructor; cbn; intuition discriminate.
  - cbv zeta. rewrite (synthesized_generic n Hn). unfold class_i_pairs.
    repeat split.
    + now rewrite length_map, length_seq.
    + now rewrite map_map.
    + apply (class_i_keys_distinct n).
    + congruence.
    + intros _. now rewrite map_map.
Qed.

(** TEST 4 when the label-map file is absent. *)
Lemma test4_synthesizes (e : env) (n : Z) (s : state) :
  disk s !! label_map_file = None ->
  test4 e (Some n) s =
    mkOutcome (Ok (JObject (synthesized_class_indices n)))
      (set_disk (<[label_map_file := json_dumps 0 (JObject (synthesized_class_indices n))]>
                   (disk s)) s)
      [ nl +:+ repeat_char "=" 60; "  TEST 4: Class Indices"; repeat_char "=" 60;
        status_line "warn" "class_indices.json not found - creating default";
        status_line "info" "Please verify these match your training data!";
        status_line "info" ("Created: " +:+ repr_dict (synthesized_class_indices n));
        status_line "warn" "Review and edit class_indices.json if needed!" ].
Proof.
  intros H. unfold test4, print_header. mrun. rewrite H.
  unfold print_status. mrun. reflexivity.
Qed.
(** *** Writing the label map and reading it back *)

(** The literal of an ASCII string is read back as the string it was
    written from. *)
Lemma parse_chars_encode (k rest : string) :
  ascii_only k = true ->
  parse_chars (encode_chars k +:+ dquote +:+ rest) = Parsed (k, rest).
Proof.
  induction k as [|c k IH]; [reflexivity |].
  cbn [ascii_only]. intros H. apply andb_prop in H as [Hc Hk]. specialize (IH Hk).
  cbn [encode_chars]. rewrite append_assoc.
  generalize dependent (encode_chars k +:+ dquote +:+ rest). intros t IH.
  destruct c as [b0 b1 b2 b3 b4 b5 b6 []]; [vm_compute in Hc; destruct b0, b1, b2, b3, b4, b5, b6; discriminate Hc |].
  clear Hc.
  destruct b0, b1, b2, b3, b4, b5, b6;
    match goal with
    | |- parse_chars (encode_char ?c +:+ _) = _ =>
        let e := eval vm_compute in (encode_char c) in
        change (encode_char c) with e
    end;
    cbn [String.append parse_chars]; cbn; rewrite IH; reflexivity.
Qed.


Lemma str_int_head (z : Z) : exists c r, str_int z = String c r /\ number_head c.
Proof.
  unfold str_int, number_head. destruct z as [|p|p]; cbn [Z.to_int NilZero.string_of_int].
  - exists "0"%char, "". split; [reflexivity | cbn; tauto].
  - pose proof (pos_to_uint_head p) as Hh.
    destruct (Pos.to_uint p) as [|d|d|d|d|d|d|d|d|d|d]; try contradiction;
      cbn [NilZero.string_of_uint NilEmpty.string_of_uint];
      eexists _, _; (split; [reflexivity | cbn; tauto]).
  - exists "-"%char, (NilZero.string_of_uint (Pos.to_uint p)).
    split; [reflexivity | cbn; tauto].
Qed.

Lemma parse_value_number_head (fuel depth : nat) (c : ascii) (t : string) :
  number_head c ->
  parse_value (S fuel) depth (String c t) =
    pbind (parse_number (String c t)) (fun '(z, rest) => Parsed (JInt z, rest)).
Proof.
  unfold number_head. cbn [In]. intros H.
  repeat (destruct H as [<-|H]; [reflexivity |]). destruct H.
Qed.

Lemma skip_ws_number_head (c : ascii) (t : string) :
  number_head c -> skip_ws (String c t) = String c t.
Proof.
  unfold number_head. cbn [In]. intros H.
  repeat (destruct H as [<-|H]; [reflexivity |]). destruct H.
Qed.

Lemma parse_value_str_int (fuel depth : nat) (z : Z) (rest : string) :
  ends_number rest ->
  parse_value (S fuel) depth (str_int z +:+ rest) = Parsed (JInt z, rest).
Proof.
  intros Hrest. pose proof (parse_number_str_int z rest Hrest) as Hp.
  destruct (str_int_head z) as (c & r & E & Hc). rewrite E in *.
  cbn [String.append] in *. rewrite (parse_value_number_head fuel depth c _ Hc).
  now rewrite Hp.
Qed.

Lemma skip_ws_str_int (z : Z) (rest : string) :
  skip_ws (str_int z +:+ rest) = str_int z +:+ rest.
Proof.
  destruct (str_int_head z) as (c & r & E & Hc). rewrite E.
  cbn [String.append]. now apply skip_ws_number_head.
Qed.

Lemma json_dumps_flat (k : string) (z : Z) (ms : list (string * Z)) :
  json_dumps 0 (JObject (map int_entry ((k, z) :: ms))) =
  "{" +:+ nl +:+ "  " +:+ encode_string k +:+ ": " +:+ str_int z +:+ render_more ms +:+
  nl +:+ "}".
Proof.
  cbn [map int_entry fst snd json_dumps]. do 6 f_equal.
  change (indent_text 0) with "". change (nl +:+ "" +:+ "}") with (nl +:+ "}").
  f_equal. induction ms as [|[k' z'] ms IH]; [reflexivity |].
  cbn [map int_entry fst snd render_more]. rewrite IH. reflexivity.
Qed.

Lemma ends_number_more (ms : list (string * Z)) (tail : string) :
  ends_number (render_more ms +:+ nl +:+ "}" +:+ tail).
Proof. destruct ms as [|[k z] ms]; split; reflexivity. Qed.

(** One member at the head of the text. *)
Lemma parse_members_step (fuel depth : nat) (k : string) (z : Z) (rest : string)
    (acc : list (string * json)) :
  ascii_only k = true -> ends_number rest ->
  parse_members (S (S fuel)) depth (encode_string k +:+ ": " +:+ str_int z +:+ rest) acc =
    match skip_ws rest with
    | "" => Invalid
    | String c4 r4 =>
        if (nat_of_ascii c4 =? 125)%nat
        then Parsed (dict_set String.eqb k (JInt z) acc, r4)
        else if (nat_of_ascii c4 =? 44)%nat
        then parse_members (S fuel) depth (skip_ws r4) (dict_set String.eqb k (JInt z) acc)
        else Invalid
    end.
Proof.
  intros Hk Hrest. unfold encode_string. rewrite !append_assoc.
  change (dquote +:+ ?x) with (String "034" x) at 1.
  cbn [parse_members]. change (nat_of_ascii "034" =? 34)%nat with true. cbn [negb].
  rewrite (parse_chars_encode k _ Hk). cbn [pbind].
  change (skip_ws (": " +:+ ?x)) with (String ":" (String " " x)).
  change (nat_of_ascii ":" =? 58)%nat with true. cbn [negb].
  change (skip_ws (String " " ?x)) with (skip_ws x).
  rewrite skip_ws_str_int, parse_value_str_int by exact Hrest.
  reflexivity.
Qed.

Lemma skip_ws_comma (x : string) : skip_ws ("," +:+ x) = String "," x.
Proof. reflexivity. Qed.

Lemma skip_ws_nl_indent (x : string) : skip_ws (nl +:+ "  " +:+ x) = skip_ws x.
Proof. reflexivity. Qed.

Lemma skip_ws_encode_string (k x : string) :
  skip_ws (encode_string k +:+ x) = encode_string k +:+ x.
Proof. reflexivity. Qed.

(** Reading the members back inserts them, in order, into the
    dictionary read so far. *)
Lemma parse_members_flat (depth : nat) (ms : list (string * Z)) :
  forall fuel acc k z tail,
    (length ms + 2 <= fuel)%nat ->
    forallb ascii_only (map fst ((k, z) :: ms)) = true ->
    parse_members fuel depth
      (encode_string k +:+ ": " +:+ str_int z +:+ render_more ms +:+ nl +:+ "}" +:+ tail) acc =
    Parsed (fold_left (fun d kv => dict_set String.eqb (fst kv) (snd kv) d)
              (map int_entry ((k, z) :: ms)) acc, tail).
Proof.
  induction ms as [|[k' z'] ms IH]; intros fuel acc k z tail Hfuel Hascii;
    (destruct fuel as [|[|fuel]]; [cbn [length] in Hfuel; lia .. |]);
    cbn [map fst forallb] in Hascii; apply andb_prop in Hascii as [Hk Hascii];
    rewrite parse_members_step by (exact Hk || apply ends_number_more).
  - reflexivity.
  - cbn [render_more]. rewrite !append_assoc, skip_ws_comma.
    change (nat_of_ascii "," =? 125)%nat with false.
    change (nat_of_ascii "," =? 44)%nat with true. cbv iota.
    rewrite skip_ws_nl_indent, skip_ws_encode_string.
    rewrite IH by (exact Hascii || (cbn [length] in Hfuel; lia)).
    reflexivity.
Qed.

Lemma length_render_more (ms : list (string * Z)) :
  (length ms <= String.length (render_more ms))%nat.
Proof.
  induction ms as [|[k z] ms IH]; [reflexivity |].
  cbn [render_more length]. rewrite !length_append. cbn [String.length]. lia.
Qed.

Lemma encode_string_head (k x : string) :
  encode_string k +:+ x = String "034" (encode_chars k +:+ dquote +:+ x).
Proof. unfold encode_string. now rewrite !append_assoc. Qed.

(** What [json.dump] writes for a dictionary of integers with pairwise
    distinct ASCII names, [json.load] reads back as the same
    dictionary. *)
Lemma json_loads_dumps_flat (ms : list (string * Z)) :
  List.NoDup (map fst ms) -> forallb ascii_only (map fst ms) = true ->
  json_loads (json_dumps 0 (JObject (map int_entry ms))) = Parsed (JObject (map int_entry ms)).
Proof.
  intros Hnd Hascii. destruct ms as [|[k z] ms]; [reflexivity |].
  rewrite json_dumps_flat. unfold json_loads, max_depth.
  set (n := String.length _).
  assert (Hn : (length ms + 2 <= n)%nat).
  { subst n. rewrite !length_append. pose proof (length_render_more ms).
    cbn [String.length nl]. lia. }
  change (skip_ws ("{" +:+ ?x)) with (String "{" x).
  cbn [parse_value]. change (nat_of_ascii "{" =? 34)%nat with false.
  change (nat_of_ascii "{" =? 123)%nat with true. cbv iota.
  rewrite skip_ws_nl_indent, skip_ws_encode_string.
  rewrite encode_string_head. cbv iota.
  change (nat_of_ascii "034" =? 125)%nat with false. cbv iota.
  rewrite <- encode_string_head.
  pose proof (parse_members_flat 99 ms n [] k z "" Hn Hascii) as Hp.
  change ("}" +:+ "") with "}" in Hp. rewrite Hp.
  cbn [pbind skip_ws String.eqb]. f_equal. f_equal.
  rewrite fold_dict_set_distinct; [reflexivity |].
  cbn [app]. rewrite map_map. exact Hnd.
Qed.

Lemma synthesized_any (n : Z) :
  n <> 2%Z -> synthesized_class_indices n = class_i_pairs (Z.to_nat n).
Proof.
  intros Hn. unfold synthesized_class_indices.
  destruct (Z.eqb_spec n 2%Z) as [E|_]; [contradiction |].
  unfold py_range. rewrite map_map.
  apply dict_of_pairs_distinct. apply class_i_keys_distinct.
Qed.

Lemma ascii_only_uint (d : Decimal.uint) : ascii_only (NilEmpty.string_of_uint d) = true.
Proof. induction d; cbn [NilEmpty.string_of_uint ascii_only]; auto. Qed.

Lemma ascii_only_str_int (z : Z) : ascii_only (str_int z) = true.
Proof.
  unfold str_int. destruct (Z.to_int z) as [d|d]; cbn [NilZero.string_of_int].
  - destruct d; try reflexivity; apply (ascii_only_uint (_ d)).
  - cbn [ascii_only]. destruct d; try reflexivity; apply (ascii_only_uint (_ d)).
Qed.

(** The synthesized map is a dictionary of integers with pairwise
    distinct ASCII names, whatever the class count. *)
Lemma synthesized_flat (n : Z) :
  exists ms, synthesized_class_indices n = map int_entry ms /\
             List.NoDup (map fst ms) /\ forallb ascii_only (map fst ms) = true.
Proof.
  destruct (Z.eq_dec n 2%Z) as [->|Hn].
  - exists [("dang", 0%Z); ("ndan", 1%Z)]. split; [reflexivity |]. split; [| reflexivity].
    repeat constructor; cbn; intuition discriminate.
  - exists (map (fun i => ("class_" +:+ str_int (Z.of_nat i), Z.of_nat i)) (seq 0 (Z.to_nat n))).
    split; [| split].
    + rewrite (synthesized_any n Hn). unfold class_i_pairs. now rewrite map_map.
    + pose proof (class_i_keys_distinct (Z.to_nat n)) as H.
      unfold class_i_pairs in H. rewrite map_map in *. exact H.
    + rewrite map_map. cbn [fst]. apply forallb_forall. intros x Hx.
      apply in_map_iff in Hx as (i & <- & _).
      change (ascii_only (str_int (Z.of_nat i)) = true). apply ascii_only_str_int.
Qed.

(** C2. With no label-map file on disk, TEST 4 synthesizes for a model
    of [n] classes a map of exactly [n] entries with pairwise distinct
    names, whose indices are 0, 1, ..., [n-1] in this order; for two
    classes the map is [dang -> 0, ndan -> 1]; and the map is written
    back to the label-map file: the file then holds the text
    [json.dump] makes of the map, a text that [json.load] reads as that
    very map, and which for two classes is the four lines
    [{], [  "dang": 0,], [  "ndan": 1] and [}].  No other file is
    touched. *)
Theorem synthesized_label_map (e : env) (n : nat) (s : state) :
  disk s !! label_map_file = None ->
  let o := test4 e (Some (Z.of_nat n)) s in
  let m := synthesized_class_indices (Z.of_nat n) in
  res o = Ok (JObject m) /\
  length m = n /\
  map snd m = map (fun i => JInt (Z.of_nat i)) (seq 0 n) /\
  List.NoDup (map fst m) /\
  (n = 2%nat -> m = [("dang", JInt 0); ("ndan", JInt 1)]) /\
  disk (st o) !! label_map_file = Some (json_dumps 0 (JObject m)) /\
  (exists text, disk (st o) !! label_map_file = Some text /\
                json_loads text = Parsed (JObject m)) /\
  (n = 2%nat ->
   disk (st o) !! label_map_file =
     Some ("{" +:+ nl +:+
           "  " +:+ dquote +:+ "dang" +:+ dquote +:+ ": 0," +:+ nl +:+
           "  " +:+ dquote +:+ "ndan" +:+ dquote +:+ ": 1" +:+ nl +:+
           "}")) /\
  (n = 0%nat -> disk (st o) !! label_map_file = Some "{}") /\
  (forall f, f <> label_map_file -> disk (st o) !! f = disk s !! f).
Proof.
  intros H o m. subst o. rewrite (test4_synthesizes e _ s H). cbn [res st]. fold m.
  destruct (synthesized_class_indices_shape n) as (H1 & H2 & H3 & H4 & _).
  cbn [disk set_disk].
  assert (Hd : <[label_map_file := json_dumps 0 (JObject m)]> (disk s) !! label_map_file =
               Some (json_dumps 0 (JObject m))) by apply lookup_insert_eq.
  split; [reflexivity |]. split; [exact H1 |]. split; [exact H2 |].
  split; [exact H3 |]. split; [exact H4 |]. split; [exact Hd |].
  split; [| split; [| split]].
  - exists (json_dumps 0 (JObject m)). split; [exact Hd |].
    subst m. destruct (synthesized_flat (Z.of_nat n)) as (ms & -> & Hnd & Hascii).
    now apply json_loads_dumps_flat.
  - intros ->. rewrite Hd. reflexivity.
  - intros ->. rewrite Hd. reflexivity.
  - intros f Hf. now apply lookup_insert_ne.
Qed.

Lemma synthesized_label_map_witness :
  let e := nominal_env in
  let s := mkState {[ "object_identifier_model.h5" := "" ]} [] [] [] in
  disk s !! label_map_file = None /\
  res (test4 e (Some 3%Z) s) =
    Ok (JObject [("class_0", JInt 0); ("class_1", JInt 1); ("class_2", JInt 2)]) /\
  disk (st (test4 e (Some 2%Z) s)) !! label_map_file =
    Some ("{" +:+ nl +:+
          "  " +:+ dquote +:+ "dang" +:+ dquote +:+ ": 0," +:+ nl +:+
          "  " +:+ dquote +:+ "ndan" +:+ dquote +:+ ": 1" +:+ nl +:+
          "}") /\
  json_loads ("{" +:+ nl +:+
              "  " +:+ dquote +:+ "dang" +:+ dquote +:+ ": 0," +:+ nl +:+
              "  " +:+ dquote +:+ "ndan" +:+ dquote +:+ ": 1" +:+ nl +:+
              "}") =
    Parsed (JObject [("dang", JInt 0); ("ndan", JInt 1)]).
Proof.
  intros e s.
  assert (H : disk s !! label_map_file = None) by reflexivity.
  split; [exact H |]. split; [| split].
  - exact (proj1 (synthesized_label_map e 3 s H)).
  - destruct (synthesized_label_map e 2 s H) as (_ & _ & _ & _ & _ & _ & _ & H8 & _).
    exact (H8 eq_refl).
  - destruct (synthesized_label_map e 2 s H)
      as (_ & _ & _ & _ & _ & _ & (text & Ht & Hl) & H8 & _).
    rewrite (H8 eq_refl) in Ht. injection Ht as <-. exact Hl.
Defined.

(** TEST 4 when the label-map file holds a JSON object. *)
Lemma test4_loads (e : env) (num_classes : option Z) (s : state) (text : string)
    (members : list (string * json)) :
  disk s !! label_map_file = Some text ->
  json_loads text = Parsed (JObject members) ->
  test4 e num_classes s =
    mkOutcome (Ok (JObject members)) s
      [ nl +:+ repeat_char "=" 60; "  TEST 4: Class Indices"; repeat_char "=" 60;
        status_line "pass" "class_indices.json loaded";
        status_line "info" ("Classes found: " +:+ repr_list (map fst members)) ].
Proof.
  intros H1 H2. unfold test4, print_header. mrun. rewrite H1.
  erewrite try_except_Ok;
    [| unfold json_load; rewrite H2; unfold print_status; mrun; reflexivity].
  reflexivity.
Qed.

(** C7. With no label-map file on disk, TEST 4 writes the synthesized
    map as JSON; parsing the text it wrote gives back that very map, and
    TEST 4 run again on the disk it left reads the file, ends with the
    same map as the value of [class_indices], and leaves the disk as it
    found it. *)
Theorem label_map_round_trip (e e' : env) (n : Z) (later : option Z) (s : state) :
  disk s !! label_map_file = None ->
  let m := synthesized_class_indices n in
  let o1 := test4 e (Some n) s in
  let o2 := test4 e' later (st o1) in
  res o1 = Ok (JObject m) /\
  (exists text, disk (st o1) !! label_map_file = Some text /\
                json_loads text = Parsed (JObject m)) /\
  res o2 = Ok (JObject m) /\
  st o2 = st o1.
Proof.
  intros H m o1 o2. subst o2 o1.
  rewrite (test4_synthesizes e n s H). cbn [res st]. fold m.
  set (s1 := set_disk _ s).
  assert (Hd : disk s1 !! label_map_file = Some (json_dumps 0 (JObject m)))
    by apply lookup_insert_eq.
  assert (Hl : json_loads (json_dumps 0 (JObject m)) = Parsed (JObject m)).
  { subst m. destruct (synthesized_flat n) as (ms & -> & Hnd & Hascii).
    now apply json_loads_dumps_flat. }
  split; [reflexivity |]. split; [eauto |].
  rewrite (test4_loads e' later s1 _ m Hd Hl). split; reflexivity.
Qed.

Lemma label_map_round_trip_witness :
  let e := nominal_env in
  let s := mkState {[ "object_identifier_model.h5" := "" ]} [] [] [] in
  let m := [("class_0", JInt 0); ("class_1", JInt 1); ("class_2", JInt 2)] in
  disk s !! label_map_file = None /\
  res (test4 e (Some 3%Z) s) = Ok (JObject m) /\
  res (test4 e None (st (test4 e (Some 3%Z) s))) = Ok (JObject m).
Proof.
  intros e s m.
  assert (H : disk s !! label_map_file = None) by reflexivity.
  split; [exact H |].
  destruct (label_map_round_trip e e 3 None s H) as (H1 & _ & H3 & _).
  split; [exact H1 | exact H3].
Defined.
(** *** Further properties of the diagnostic runner *)

(** The loop of TEST 2 on any list of modules, when an import fails
    with [ImportError] only: one line for each module, and the modules
    that failed are appended, in order, to the list of the missing
    ones. *)
Lemma check_dependencies_spec (e : env) (l : list (string * string)) :
  (forall m x, In m (map fst l) -> import_fault e m = Some x -> is_ImportError x = true) ->
  forall missing s,
    check_dependencies e l missing s =
      mkOutcome
        (Ok (missing ++
             map fst (List.filter
                        (fun md => match import_fault e (fst md) with
                                   | Some _ => true
                                   | None => false
                                   end) l)))
        s
        (map (fun md =>
                match import_fault e (fst md) with
                | None => status_line "pass" (fst md +:+ " - " +:+ snd md)
                | Some _ => status_line "fail" (fst md +:+ " NOT installed - " +:+ snd md)
                end) l).
Proof.
  induction l as [|[m d] l IH]; intros H missing s.
  - cbn. now rewrite app_nil_r.
  - cbn [check_dependencies List.filter map fst snd].
    assert (Hl : forall m' x, In m' (map fst l) -> import_fault e m' = Some x ->
                              is_ImportError x = true).
    { intros m' x Hin. apply H. now right. }
    destruct (import_fault e m) as [x|] eqn:E.
    + rewrite (H m x (or_introl eq_refl) E). unfold print_status. rewrite bind_print.
      rewrite (IH Hl). cbn [res st out map fst app]. now rewrite <- app_assoc.
    + unfold print_status. rewrite bind_print.
      rewrite (IH Hl). reflexivity.
Qed.

(** TEST 2 (lines 49-81), when an import fails with [ImportError] only:
    the check prints one line for each of the five modules, in the order
    of the table; when none is missing the run goes on; when some are,
    it prints their names, in that order and separated by commas, and
    ends the run with [sys.exit(1)].  The disk is not touched. *)
Theorem missing_dependency_ends_run (e : env) (s : state) :
  (forall m x, In m (map fst dependencies) -> import_fault e m = Some x ->
               is_ImportError x = true) ->
  let missing :=
    map fst (List.filter
               (fun md => match import_fault e (fst md) with
                          | Some _ => true
                          | None => false
                          end) dependencies) in
  let o := test2 e s in
  st o = s /\
  (missing = [] -> res o = Ok tt) /\
  (missing <> [] ->
     res o = Raise (SystemExit 1) /\
     exit_status_of (SystemExit 1) = 1%Z /\
     In (status_line "fail" ("Missing dependencies: " +:+ join_with ", " missing)) (out o)) /\
  (forall md, In md dependencies ->
     In (match import_fault e (fst md) with
         | None => status_line "pass" (fst md +:+ " - " +:+ snd md)
         | Some _ => status_line "fail" (fst md +:+ " NOT installed - " +:+ snd md)
         end) (out o)).
Proof.
  intros H missing o. subst o. unfold test2, print_header. mrun.
  rewrite (bind_Ok _ _ _ _ _ _ (check_dependencies_spec e dependencies H [] s)).
  cbn [app]. fold missing.
  assert (Hlines : forall (tail : list string) md, In md dependencies ->
            In (match import_fault e (fst md) with
                | None => status_line "pass" (fst md +:+ " - " +:+ snd md)
                | Some _ => status_line "fail" (fst md +:+ " NOT installed - " +:+ snd md)
                end)
               (map (fun md =>
                       match import_fault e (fst md) with
                       | None => status_line "pass" (fst md +:+ " - " +:+ snd md)
                       | Some _ => status_line "fail" (fst md +:+ " NOT installed - " +:+ snd md)
                       end) dependencies ++ tail)).
  { intros tail md Hin. apply in_or_app. left.
    apply in_map_iff. exists md. now split. }
  destruct missing as [|m0 ms] eqn:Em.
  - cbn [res st out ret]. split; [reflexivity |]. split; [reflexivity |].
    split; [congruence |]. intros md Hin. do 3 right. now apply Hlines.
  - unfold print_status. mrun.
    split; [reflexivity |]. split; [discriminate |]. split.
    + intros _. split; [reflexivity |]. split; [reflexivity |].
      do 3 right. apply in_or_app. right. now left.
    + intros md Hin. do 3 right. now apply Hlines.
Qed.

Lemma missing_dependency_ends_run_witness :
  let e := mkEnv (size_text nominal_env)
             (fun m => if String.eqb m "cv2" || String.eqb m "picamera2"
                       then Some (ImportError m) else None)
             (load_model nominal_env) (decode_error_text nominal_env)
             (fault nominal_env) (frame_jpeg nominal_env) (inference nominal_env) in
  let s := mkState {[ "object_identifier_model.h5" := "" ]} [] [] [] in
  res (test2 e s) = Raise (SystemExit 1) /\
  In (status_line "fail" "Missing dependencies: cv2, picamera2") (out (test2 e s)) /\
  In (status_line "pass" "numpy - Numerical operations") (out (test2 e s)) /\
  st (test2 e s) = s.
Proof.
  intros e s.
  assert (H : forall m x, In m (map fst dependencies) -> import_fault e m = Some x ->
                          is_ImportError x = true).
  { intros m x _. cbn [import_fault e].
    destruct (String.eqb m "cv2" || String.eqb m "picamera2"); [| discriminate].
    intros [= <-]. reflexivity. }
  destruct (missing_dependency_ends_run e s H) as (H1 & _ & H3 & H4).
  destruct (H3 ltac:(discriminate)) as (H5 & _ & H6).
  split; [exact H5 |]. split; [exact H6 |]. split; [| exact H1].
  exact (H4 ("numpy", "Numerical operations") (or_introl eq_refl)).
Defined.

(** TEST 3 (lines 83-103), when [load_model] raises: an exception of
    class [Exception] is caught, its text is printed in the last line
    and the run ends with [sys.exit(1)]; an exception outside that class
    (an interrupt) passes through the [except] clause.  The disk is not
    touched. *)
Theorem model_load_failure_ends_run (e : env) (s : state) (x : exn) :
  load_model e = Raise x ->
  let o := test3 e s in
  st o = s /\
  (is_Exception x = true ->
     res o = Raise (SystemExit 1) /\
     last (out o) = Some (status_line "fail" ("Failed to load model: " +:+ exn_text x))) /\
  (is_Exception x = false -> res o = Raise x).
Proof.
  intros H o. subst o. unfold test3, print_header. mrun.
  assert (Hbody :
    (print_status "info" "Loading model (this may take 30-60 seconds)..." ;;
     match load_model e with
     | Raise x => raise x
     | Ok (input_shape, output_shape) =>
         print_status "pass" "Model loaded successfully!" ;;
         match last (A := option Z) output_shape with
         | None => raise (IndexError "tuple index out of range")
         | Some num_classes =>
             print_status "info" ("Input shape: " +:+ repr_shape input_shape) ;;
             print_status "info" ("Output shape: " +:+ repr_shape output_shape) ;;
             print_status "info" ("Number of classes: " +:+ repr_dim num_classes) ;;
             ret (input_shape, num_classes)
         end
     end)%py s =
    mkOutcome (Raise x) s
      [status_line "info" "Loading model (this may take 30-60 seconds)..."]).
  { rewrite H. unfold print_status. mrun. reflexivity. }
  destruct (is_Exception x) eqn:Ex.
  - erewrite try_except_caught; [| exact Hbody | unfold except_Exception; rewrite Ex; reflexivity].
    unfold print_status. mrun. cbn [res st out app].
    split; [reflexivity |]. split; [| discriminate].
    intros _. split; reflexivity.
  - erewrite try_except_passed; [| exact Hbody | unfold except_Exception; rewrite Ex; reflexivity].
    cbn [res st out]. split; [reflexivity |]. split; [discriminate | reflexivity].
Qed.

Lemma model_load_failure_ends_run_witness :
  let e := mkEnv (size_text nominal_env) (import_fault nominal_env)
             (Raise (OtherException "OSError" "Unable to open file (file signature not found)"))
             (decode_error_text nominal_env)
             (fault nominal_env) (frame_jpeg nominal_env) (inference nominal_env) in
  let s := mkState {[ "object_identifier_model.h5" := "" ]} [] [] [] in
  res (test3 e s) = Raise (SystemExit 1) /\
  last (out (test3 e s)) =
    Some (status_line "fail"
            "Failed to load model: Unable to open file (file signature not found)") /\
  st (test3 e s) = s.
Proof.
  intros e s.
  destruct (model_load_failure_ends_run e s
              (OtherException "OSError" "Unable to open file (file signature not found)") eq_refl)
    as (H1 & H2 & _).
  destruct (H2 eq_refl) as [H3 H4].
  split; [exact H3 |]. split; [exact H4 | exact H1].
Defined.


End DiagnosticFacts.
